(** * Vim buffer actions of the prompt editor

    A shallow embedding of [handleVimAction]
    (packages/cli/src/ui/components/shared/vim-buffer-actions.ts) and of the
    helpers it imports, followed by the properties of the buffer
    specification that concern it.

    JavaScript strings are sequences of UTF-16 code units, numbers are
    integers ([Z]), [null]/[undefined] are [None]. *)

From Stdlib Require Import ZArith List Bool Lia.
From Stdlib Require String Ascii.
Import ListNotations String.StringSyntax.
Delimit Scope string_scope with string.
Open Scope Z_scope.

(** ** JavaScript built-ins used by the reducer *)

Module JS.

(** A string value: its UTF-16 code units. *)
Definition jsstring : Type := list N.

(** The line break ['\n']. *)
Definition LF : N := 10%N.

(** An ASCII literal as a string value. *)
Definition lit (s : String.string) : jsstring :=
  map Ascii.N_of_ascii (String.list_ascii_of_string s).
Arguments lit s%_string.

(** [s.length]. *)
Definition len {A} (s : list A) : Z := Z.of_nat (length s).

(** [xs[i]]: [undefined] outside of the array. *)
Definition at_ {A} (xs : list A) (i : Z) : option A :=
  if i <? 0 then None else nth_error xs (Z.to_nat i).

(** [x || ''] for an optional string. *)
Definition orEmpty (x : option jsstring) : jsstring :=
  match x with Some v => v | None => [] end.

(** Truthiness of an optional string: [null] and [''] are falsy. *)
Definition truthy (x : option jsstring) : bool :=
  match x with Some (_ :: _) => true | _ => false end.

Definition clamp (v lo hi : Z) : Z := Z.min (Z.max v lo) hi.

(** Relative index of [slice]/[splice]: negative counts from the end. *)
Definition relIndex (i n : Z) : Z :=
  if i <? 0 then Z.max (n + i) 0 else Z.min i n.

(** [s.slice(b, e)] on code units (and on arrays). *)
Definition slice {A} (s : list A) (b e : Z) : list A :=
  let from := relIndex b (len s) in
  let to := relIndex e (len s) in
  firstn (Z.to_nat (to - from)) (skipn (Z.to_nat from) s).

(** [s.slice(b)]. *)
Definition sliceFrom {A} (s : list A) (b : Z) : list A :=
  skipn (Z.to_nat (relIndex b (len s))) s.

(** [xs.splice(start, deleteCount, ...items)], the resulting array. *)
Definition splice {A} (xs : list A) (start dc : Z) (items : list A) : list A :=
  let from := relIndex start (len xs) in
  let n := Z.min (Z.max dc 0) (len xs - from) in
  firstn (Z.to_nat from) xs ++ items ++ skipn (Z.to_nat (from + n)) xs.

Fixpoint startsWith (q s : jsstring) : bool :=
  match q, s with
  | [], _ => true
  | _ :: _, [] => false
  | a :: q', b :: s' => N.eqb a b && startsWith q' s'
  end.

(** First index [>= k] of a suffix of the string that starts with [q];
    [s] is the part of the string from index [k] on. *)
Fixpoint indexOfAux (q s : jsstring) (k : Z) : Z :=
  if startsWith q s then k
  else match s with
       | [] => -1
       | _ :: r => indexOfAux q r (k + 1)
       end.

(** [s.indexOf(q, from)]: the start position is clamped to [0, s.length]. *)
Definition indexOf (s q : jsstring) (from : Z) : Z :=
  let pos := clamp from 0 (len s) in
  indexOfAux q (skipn (Z.to_nat pos) s) pos.

(** [s.includes(q)]. *)
Definition includes (s q : jsstring) : bool :=
  negb (indexOf s q 0 =? -1).

(** [s.endsWith(q)]. *)
Definition endsWith (s q : jsstring) : bool :=
  (length q <=? length s)%nat &&
  startsWith q (skipn (length s - length q) s).

(** [s.split('\n')]. *)
Fixpoint splitLF (s : jsstring) : list jsstring :=
  match s with
  | [] => [[]]
  | c :: r =>
      if N.eqb c LF then [] :: splitLF r
      else match splitLF r with
           | [] => [[c]]
           | h :: t => (c :: h) :: t
           end
  end.

(** Code units matched by the regular expression class [\s]. *)
Definition isSpaceUnit (u : N) : bool :=
  ((9 <=? u) && (u <=? 13) || (u =? 32) || (u =? 160) || (u =? 5760)
   || (8192 <=? u) && (u <=? 8202) || (u =? 8232) || (u =? 8233)
   || (u =? 8239) || (u =? 8287) || (u =? 12288) || (u =? 65279))%N.

(** [/\s/.test(s)]. *)
Definition testSpace (s : jsstring) : bool := existsb isSpaceUnit s.

Definition isHighSurrogate (u : N) : bool := ((55296 <=? u) && (u <=? 56319))%N.
Definition isLowSurrogate (u : N) : bool := ((56320 <=? u) && (u <=? 57343))%N.

(** [Array.from(s)]: the string cut into code points, a surrogate pair
    counting for one. *)
Fixpoint arrayFrom (s : jsstring) : list jsstring :=
  match s with
  | [] => []
  | u :: r =>
      match r with
      | v :: r' =>
          if isHighSurrogate u && isLowSurrogate v
          then [u; v] :: arrayFrom r'
          else [u] :: arrayFrom r
      | [] => [[u]]
      end
  end.

End JS.

Import JS.

(** ** utils/textUtils.ts *)

Module TextUtils.

(** Modelled from the spec: [toCodePoints] of utils/textUtils.ts, whose code
    is missing.  Spec 4.1, [codepoints(line)]: the line as an ordered
    sequence of single-codepoint strings. *)
Definition toCodePoints (str : jsstring) : list jsstring := arrayFrom str.

(** Modelled from the spec: [cpLen] of utils/textUtils.ts, whose code is
    missing.  Spec 4.1, [length(line)]: the number of Unicode codepoints. *)
Definition cpLen (str : jsstring) : Z := len (toCodePoints str).

(** Modelled from the spec: [cpSlice] of utils/textUtils.ts, whose code is
    missing, called with both bounds.  Spec 4.1, [slice(line, start, end)]:
    codepoints [[start, end)], clamped to line bounds. *)
Definition cpSlice (str : jsstring) (b e : Z) : jsstring :=
  let cps := toCodePoints str in
  let from := clamp b 0 (len cps) in
  let to := clamp e 0 (len cps) in
  concat (firstn (Z.to_nat (to - from)) (skipn (Z.to_nat from) cps)).

(** Modelled from the spec: [cpSlice] called without an end, the
    codepoints from [b] to the end of the line. *)
Definition cpSliceFrom (str : jsstring) (b : Z) : jsstring :=
  let cps := toCodePoints str in
  concat (skipn (Z.to_nat (clamp b 0 (len cps))) cps).

End TextUtils.

Import TextUtils.

(** ** The buffer state (text-buffer.ts) *)

(** A snapshot on the undo or redo stack: lines and cursor. *)
Record UndoHistoryEntry : Type := {
  u_lines : list jsstring;
  u_cursorRow : Z;
  u_cursorCol : Z }.

(** The fields of [TextBufferState] that the vim reducer reads or writes,
    with the two history stacks of the specification. The head of a stack
    is its most recent entry. *)
Record TextBufferState : Type := {
  lines : list jsstring;
  cursorRow : Z;
  cursorCol : Z;
  preferredCol : option Z;
  selectionAnchor : option (Z * Z);
  clipboard : option jsstring;
  lastSearchQuery : option jsstring;
  undoStack : list UndoHistoryEntry;
  redoStack : list UndoHistoryEntry }.

(** Object spread with one field replaced. *)
Definition set_lines (s : TextBufferState) (v : list jsstring) :=
  {| lines := v; cursorRow := cursorRow s; cursorCol := cursorCol s;
     preferredCol := preferredCol s; selectionAnchor := selectionAnchor s;
     clipboard := clipboard s; lastSearchQuery := lastSearchQuery s;
     undoStack := undoStack s; redoStack := redoStack s |}.
Definition set_cursorRow (s : TextBufferState) (v : Z) :=
  {| lines := lines s; cursorRow := v; cursorCol := cursorCol s;
     preferredCol := preferredCol s; selectionAnchor := selectionAnchor s;
     clipboard := clipboard s; lastSearchQuery := lastSearchQuery s;
     undoStack := undoStack s; redoStack := redoStack s |}.
Definition set_cursorCol (s : TextBufferState) (v : Z) :=
  {| lines := lines s; cursorRow := cursorRow s; cursorCol := v;
     preferredCol := preferredCol s; selectionAnchor := selectionAnchor s;
     clipboard := clipboard s; lastSearchQuery := lastSearchQuery s;
     undoStack := undoStack s; redoStack := redoStack s |}.
Definition set_preferredCol (s : TextBufferState) (v : option Z) :=
  {| lines := lines s; cursorRow := cursorRow s; cursorCol := cursorCol s;
     preferredCol := v; selectionAnchor := selectionAnchor s;
     clipboard := clipboard s; lastSearchQuery := lastSearchQuery s;
     undoStack := undoStack s; redoStack := redoStack s |}.
Definition set_selectionAnchor (s : TextBufferState) (v : option (Z * Z)) :=
  {| lines := lines s; cursorRow := cursorRow s; cursorCol := cursorCol s;
     preferredCol := preferredCol s; selectionAnchor := v;
     clipboard := clipboard s; lastSearchQuery := lastSearchQuery s;
     undoStack := undoStack s; redoStack := redoStack s |}.
Definition set_clipboard (s : TextBufferState) (v : option jsstring) :=
  {| lines := lines s; cursorRow := cursorRow s; cursorCol := cursorCol s;
     preferredCol := preferredCol s; selectionAnchor := selectionAnchor s;
     clipboard := v; lastSearchQuery := lastSearchQuery s;
     undoStack := undoStack s; redoStack := redoStack s |}.
Definition set_lastSearchQuery (s : TextBufferState) (v : option jsstring) :=
  {| lines := lines s; cursorRow := cursorRow s; cursorCol := cursorCol s;
     preferredCol := preferredCol s; selectionAnchor := selectionAnchor s;
     clipboard := clipboard s; lastSearchQuery := v;
     undoStack := undoStack s; redoStack := redoStack s |}.
Definition set_undoStack (s : TextBufferState) (v : list UndoHistoryEntry) :=
  {| lines := lines s; cursorRow := cursorRow s; cursorCol := cursorCol s;
     preferredCol := preferredCol s; selectionAnchor := selectionAnchor s;
     clipboard := clipboard s; lastSearchQuery := lastSearchQuery s;
     undoStack := v; redoStack := redoStack s |}.
Definition set_redoStack (s : TextBufferState) (v : list UndoHistoryEntry) :=
  {| lines := lines s; cursorRow := cursorRow s; cursorCol := cursorCol s;
     preferredCol := preferredCol s; selectionAnchor := selectionAnchor s;
     clipboard := clipboard s; lastSearchQuery := lastSearchQuery s;
     undoStack := undoStack s; redoStack := v |}.

(** [{...s, cursorRow: r, cursorCol: c, preferredCol: p}]. *)
Definition moveCursor (s : TextBufferState) (r c : Z) (p : option Z) :=
  set_preferredCol (set_cursorCol (set_cursorRow s r) c) p.

(** [lines[row] || '']. *)
Definition lineAt (ls : list jsstring) (row : Z) : jsstring :=
  orEmpty (at_ ls row).

(** ** Helpers imported from text-buffer.ts *)

Module TextBuffer.

(** Modelled from the spec: the entry that [pushUndo] of text-buffer.ts
    (code missing) puts on a stack.  Spec 4.6: [lines] and the cursor
    position. *)
Definition snapshot (s : TextBufferState) : UndoHistoryEntry :=
  {| u_lines := lines s; u_cursorRow := cursorRow s;
     u_cursorCol := cursorCol s |}.

(** Modelled from the spec: [pushUndo] of text-buffer.ts, whose code is
    missing.  Spec 4.6, [snapshot(state)]: captures [lines] and the cursor
    position onto the undo stack. *)
Definition pushUndo (s : TextBufferState) : TextBufferState :=
  set_undoStack s (snapshot s :: undoStack s).

(** Modelled from the spec: the undo operation of text-buffer.ts, whose
    code is missing.  Spec 4.6, [undo(state)]: pops the most recent snapshot
    and restores it as current state, pushing the pre-undo state onto the
    redo stack. *)
Definition undo (s : TextBufferState) : TextBufferState :=
  match undoStack s with
  | [] => s
  | e :: rest =>
      set_redoStack
        (set_undoStack
           (set_cursorCol
              (set_cursorRow (set_lines s (u_lines e)) (u_cursorRow e))
              (u_cursorCol e))
           rest)
        (snapshot s :: redoStack s)
  end.

(** Modelled from the spec: [replaceRangeInternal] of text-buffer.ts, whose
    code is missing.  Spec 4.4: the content from [(startRow, startCol)]
    inclusive to [(endRow, endCol)] exclusive is removed by concatenating the
    unaffected prefix of the start line, the text and the unaffected suffix
    of the end line, and re-splitting at the line breaks; the cursor is
    repositioned to the end of the inserted text; [lines] is never emptied.
    Spec 3: an edit clears [preferredCol]. *)
Definition replaceRangeInternal (s : TextBufferState)
    (startRow startCol endRow endCol : Z) (text : jsstring) : TextBufferState :=
  let prefix := cpSlice (lineAt (lines s) startRow) 0 startCol in
  let suffix := cpSliceFrom (lineAt (lines s) endRow) endCol in
  let upToCursor := splitLF (prefix ++ text) in
  let newLines :=
    firstn (Z.to_nat startRow) (lines s)
    ++ splitLF (prefix ++ text ++ suffix)
    ++ skipn (Z.to_nat (endRow + 1)) (lines s) in
  moveCursor (set_lines s newLines)
    (startRow + len upToCursor - 1)
    (cpLen (last upToCursor []))
    None.

(** Modelled from the spec: helper of [getLineRangeOffsets] (code missing).
    Offset of the first character of line [row] in the text of the buffer,
    the lines being separated by one line break. *)
Fixpoint offsetOfRow (ls : list jsstring) (row : nat) : Z :=
  match row, ls with
  | S n, l :: rest => cpLen l + 1 + offsetOfRow rest n
  | _, _ => 0
  end.

(** Modelled from the spec: [getLineRangeOffsets] of text-buffer.ts, whose
    code is missing.  Spec 4.5: the offsets of the text of [count] lines
    starting at [row]; the range ends before the line break of its last
    line. *)
Definition getLineRangeOffsets (row count : Z) (ls : list jsstring) : Z * Z :=
  let startOffset := offsetOfRow ls (Z.to_nat row) in
  (startOffset,
   Z.max startOffset (offsetOfRow ls (Z.to_nat (row + count)) - 1)).

(** Modelled from the spec: helper of [getPositionFromOffsets] (code
    missing).  The (row, col) pair of an offset, counted from row [row]. *)
Fixpoint positionOfOffset (ls : list jsstring) (off row : Z) : Z * Z :=
  match ls with
  | [] => (row, 0)
  | l :: rest =>
      match rest with
      | [] => (row, Z.min off (cpLen l))
      | _ :: _ =>
          if off <=? cpLen l then (row, off)
          else positionOfOffset rest (off - cpLen l - 1) (row + 1)
      end
  end.

(** Modelled from the spec: [getPositionFromOffsets] of text-buffer.ts,
    whose code is missing.  Spec 4.5: two offsets turned back into
    (row, col) pairs, [(startRow, startCol, endRow, endCol)]. *)
Definition getPositionFromOffsets (startOffset endOffset : Z)
    (ls : list jsstring) : Z * Z * Z * Z :=
  let '(sr, sc) := positionOfOffset ls startOffset 0 in
  let '(er, ec) := positionOfOffset ls endOffset 0 in
  (sr, sc, er, ec).

(** The character classifier and the word scanner of text-buffer.ts: the
    reducer is written over any implementation of them. A classifier
    receives [None] when the reducer indexes the code points out of
    range. *)
Record WordScanner : Type := {
  isWordCharStrict : option jsstring -> bool;
  isWordCharWithCombining : option jsstring -> bool;
  isCombiningMark : option jsstring -> bool;
  findNextWordAcrossLines :
    list jsstring -> Z -> Z -> bool -> option (Z * Z);
  findPrevWordAcrossLines : list jsstring -> Z -> Z -> option (Z * Z);
  findWordEndInLine : jsstring -> Z -> option Z }.

End TextBuffer.

Import TextBuffer.

(** ** vim-buffer-actions.ts *)

Inductive SearchDirection : Type := forward | backward.
Inductive PasteDirection : Type := before | after.
Inductive Movement : Type := move_h | move_j | move_k | move_l.

(** [VimAction]: the action types with their payloads. *)
Inductive VimAction : Type :=
| vim_delete_word_forward (count : Z)
| vim_delete_word_backward (count : Z)
| vim_delete_word_end (count : Z)
| vim_change_word_forward (count : Z)
| vim_change_word_backward (count : Z)
| vim_change_word_end (count : Z)
| vim_delete_line (count : Z)
| vim_change_line (count : Z)
| vim_delete_to_end_of_line
| vim_change_to_end_of_line
| vim_change_movement (movement : Movement) (count : Z)
| vim_move_left (count : Z)
| vim_move_right (count : Z)
| vim_move_up (count : Z)
| vim_move_down (count : Z)
| vim_move_word_forward (count : Z)
| vim_move_word_backward (count : Z)
| vim_move_word_end (count : Z)
| vim_delete_char (count : Z)
| vim_insert_at_cursor
| vim_append_at_cursor
| vim_open_line_below
| vim_open_line_above
| vim_append_at_line_end
| vim_insert_at_line_start
| vim_move_to_line_start
| vim_move_to_line_end
| vim_move_to_first_nonwhitespace
| vim_move_to_first_line
| vim_move_to_last_line
| vim_move_to_line (lineNumber : Z)
| vim_escape_insert_mode
| vim_set_selection_anchor
| vim_clear_selection
| vim_search (query : jsstring) (direction : SearchDirection)
| vim_search_next (direction : SearchDirection)
| vim_yank (text : jsstring)
| vim_yank_selection
| vim_paste (direction : PasteDirection).

(** What a call of the reducer does: it returns a state, or a [TypeError]
    is thrown (a method called on [undefined]). *)
Inductive Outcome : Type :=
| Returned (s : TextBufferState)
| TypeError.

(** A position [(row, col)] is before another one: row first, then col. *)
Definition posBefore (p q : Z * Z) : bool :=
  (fst p <? fst q) || (fst p =? fst q) && (snd p <? snd q).

(** The branch shared by [vim_delete_char] and [vim_yank_selection]:
    [(startRow, startCol, endRow, endCol)] of the selection. *)
Definition selectionRange (anchor : Z * Z) (cursorRow cursorCol : Z)
    : Z * Z * Z * Z :=
  if posBefore anchor (cursorRow, cursorCol)
  then (fst anchor, snd anchor, cursorRow, cursorCol)
  else (cursorRow, cursorCol, fst anchor, snd anchor).

(** *** Search *)

(** [foundRow] and [foundCol] before a match is found. *)
Definition notFound : Z * Z := (-1, -1).

(** [for (let i = from; i < lines.length; i++)] of the forward search:
    [(foundRow, foundCol)] after the loop, or [None] when [line.indexOf] is
    called on [undefined]; [n] bounds the number of iterations. *)
Fixpoint searchBelow (n : nat) (ls : list jsstring) (query : jsstring) (i : Z)
    : option (Z * Z) :=
  match n with
  | O => Some notFound
  | S n' =>
      if i <? len ls then
        match at_ ls i with
        | None => None
        | Some line =>
            let idx := indexOf line query 0 in
            if negb (idx =? -1) then Some (i, idx)
            else searchBelow n' ls query (i + 1)
        end
      else Some notFound
  end.

(** [for (let i = from; i <= cursorRow; i++)] of the wrap-around. *)
Fixpoint searchWrap (n : nat) (ls : list jsstring) (query : jsstring)
    (cursorRow cursorCol i : Z) : option (Z * Z) :=
  match n with
  | O => Some notFound
  | S n' =>
      if i <=? cursorRow then
        match at_ ls i with
        | None => None
        | Some line =>
            let idx := indexOf line query 0 in
            if negb (idx =? -1) && ((i <? cursorRow) || (idx <? cursorCol))
            then Some (i, idx)
            else searchWrap n' ls query cursorRow cursorCol (i + 1)
        end
      else Some notFound
  end.

(** The scan shared by [vim_search] and [vim_search_next]:
    [(foundRow, foundCol)] at its end, or [None] when a [TypeError] is
    thrown. *)
Definition searchScan (ls : list jsstring) (cursorRow cursorCol : Z)
    (query : jsstring) (direction : SearchDirection) : option (Z * Z) :=
  match direction with
  | backward => Some notFound
  | forward =>
      let currentLine := lineAt ls cursorRow in
      let idx := indexOf currentLine query (cursorCol + 1) in
      if negb (idx =? -1) then Some (cursorRow, idx)
      else
        match searchBelow (Z.to_nat (len ls - (cursorRow + 1))) ls query
                (cursorRow + 1) with
        | None => None
        | Some (foundRow, foundCol) =>
            if foundRow =? -1
            then searchWrap (Z.to_nat (cursorRow + 1)) ls query
                   cursorRow cursorCol 0
            else Some (foundRow, foundCol)
        end
  end.

Definition vimSearch (state : TextBufferState) (query : jsstring)
    (direction : SearchDirection) : Outcome :=
  match searchScan (lines state) (cursorRow state) (cursorCol state) query
          direction with
  | None => TypeError
  | Some (foundRow, foundCol) =>
      if negb (foundRow =? -1) then
        Returned
          (set_lastSearchQuery (moveCursor state foundRow foundCol None)
             (Some query))
      else Returned (set_lastSearchQuery state (Some query))
  end.

Definition vimSearchNext (state : TextBufferState)
    (direction : SearchDirection) : Outcome :=
  if negb (truthy (lastSearchQuery state)) then Returned state
  else
    let query := orEmpty (lastSearchQuery state) in
    match searchScan (lines state) (cursorRow state) (cursorCol state) query
            direction with
    | None => TypeError
    | Some (foundRow, foundCol) =>
        if negb (foundRow =? -1)
        then Returned (moveCursor state foundRow foundCol None)
        else Returned state
    end.

(** *** Yank and paste *)

(** The middle lines of a yanked selection:
    [for (let i = from; i < endRow; i++) text += (lines[i] || '') + '\n']. *)
Fixpoint yankMiddle (n : nat) (ls : list jsstring) (i endRow : Z) : jsstring :=
  match n with
  | O => []
  | S n' =>
      if i <? endRow
      then lineAt ls i ++ [LF] ++ yankMiddle n' ls (i + 1) endRow
      else []
  end.

Definition vimYankSelection (state : TextBufferState) : TextBufferState :=
  match selectionAnchor state with
  | None => state
  | Some anchor =>
      let '(startRow, startCol, endRow, endCol) :=
        selectionRange anchor (cursorRow state) (cursorCol state) in
      let ls := lines state in
      let yankedText :=
        if startRow =? endRow
        then cpSlice (lineAt ls startRow) startCol (endCol + 1)
        else cpSliceFrom (lineAt ls startRow) startCol ++ [LF]
             ++ yankMiddle (Z.to_nat (endRow - (startRow + 1))) ls
                  (startRow + 1) endRow
             ++ cpSlice (lineAt ls endRow) 0 (endCol + 1) in
      set_clipboard state (Some yankedText)
  end.

Definition vimPaste (state : TextBufferState) (direction : PasteDirection)
    : TextBufferState :=
  if negb (truthy (clipboard state)) then state
  else
    let clip := orEmpty (clipboard state) in
    let cursorRow := cursorRow state in
    let cursorCol := cursorCol state in
    let nextState := pushUndo state in
    match direction with
    | after =>
        let currentLine := lineAt (lines state) cursorRow in
        if includes clip [LF] then
          if endsWith clip [LF] then
            let endOfLine := cpLen currentLine in
            replaceRangeInternal nextState cursorRow endOfLine cursorRow
              endOfLine ([LF] ++ slice clip 0 (-1))
          else
            let insertCol := Z.min (cursorCol + 1) (cpLen currentLine) in
            replaceRangeInternal nextState cursorRow insertCol cursorRow
              insertCol clip
        else
          let insertCol := Z.min (cursorCol + 1) (cpLen currentLine) in
          replaceRangeInternal nextState cursorRow insertCol cursorRow
            insertCol clip
    | before =>
        if includes clip [LF] && endsWith clip [LF] then
          replaceRangeInternal nextState cursorRow 0 cursorRow 0 clip
        else
          replaceRangeInternal nextState cursorRow cursorCol cursorRow
            cursorCol clip
    end.

(** *** Line operators *)

Definition vimDeleteLine (state : TextBufferState) (count : Z)
    : TextBufferState :=
  let ls := lines state in
  let cursorRow := cursorRow state in
  if len ls =? 0 then state
  else
    let linesToDelete := Z.min count (len ls - cursorRow) in
    let totalLines := len ls in
    if (totalLines =? 1) || (linesToDelete >=? totalLines) then
      let nextState := pushUndo state in
      moveCursor (set_lines nextState [[]]) 0 0 None
    else
      let nextState := pushUndo state in
      let newLines := splice (lines nextState) cursorRow linesToDelete [] in
      let newCursorRow := Z.min cursorRow (len newLines - 1) in
      let newCursorCol := 0 in
      moveCursor (set_lines nextState newLines) newCursorRow newCursorCol None.

(** The range replaced for [linesToChange] lines starting at [startRow]. *)
Definition replaceLines (nextState : TextBufferState)
    (startRow linesToChange : Z) : TextBufferState :=
  let '(startOffset, endOffset) :=
    getLineRangeOffsets startRow linesToChange (lines nextState) in
  let '(startRow', startCol, endRow, endCol) :=
    getPositionFromOffsets startOffset endOffset (lines nextState) in
  replaceRangeInternal nextState startRow' startCol endRow endCol [].

Definition vimChangeLine (state : TextBufferState) (count : Z)
    : TextBufferState :=
  let ls := lines state in
  if len ls =? 0 then state
  else
    let linesToChange := Z.min count (len ls - cursorRow state) in
    let nextState := pushUndo state in
    replaceLines nextState (cursorRow state) linesToChange.

Definition vimDeleteToEndOfLine (state : TextBufferState) : TextBufferState :=
  let currentLine := lineAt (lines state) (cursorRow state) in
  if cursorCol state <? cpLen currentLine then
    let nextState := pushUndo state in
    replaceRangeInternal nextState (cursorRow state) (cursorCol state)
      (cursorRow state) (cpLen currentLine) []
  else state.

Definition vimChangeMovement (state : TextBufferState) (movement : Movement)
    (count : Z) : TextBufferState :=
  let ls := lines state in
  let cursorRow := cursorRow state in
  let cursorCol := cursorCol state in
  let totalLines := len ls in
  match movement with
  | move_h =>
      let startCol := Z.max 0 (cursorCol - count) in
      replaceRangeInternal (pushUndo state) cursorRow startCol cursorRow
        cursorCol []
  | move_j =>
      let linesToChange := Z.min count (totalLines - cursorRow) in
      if linesToChange >? 0 then
        if totalLines =? 1 then
          let currentLine := lineAt (lines state) 0 in
          replaceRangeInternal (pushUndo state) 0 0 0 (cpLen currentLine) []
        else
          let nextState := pushUndo state in
          replaceLines nextState cursorRow linesToChange
      else state
  | move_k =>
      let upLines := Z.min count (cursorRow + 1) in
      if upLines >? 0 then
        if len (lines state) =? 1 then
          let currentLine := lineAt (lines state) 0 in
          replaceRangeInternal (pushUndo state) 0 0 0 (cpLen currentLine) []
        else
          let startRow := Z.max 0 (cursorRow - count + 1) in
          let linesToChange := cursorRow - startRow + 1 in
          let nextState := pushUndo state in
          let resultState := replaceLines nextState startRow linesToChange in
          set_cursorCol (set_cursorRow resultState startRow) 0
      else state
  | move_l =>
      replaceRangeInternal (pushUndo state) cursorRow cursorCol cursorRow
        (Z.min (cpLen (lineAt ls cursorRow)) (cursorCol + count)) []
  end.

(** *** Motions that do not look at words *)

(** One iteration of the loop of [vim_move_left]. *)
Definition moveLeftStep (ls : list jsstring) (p : Z * Z) : Z * Z :=
  let '(newRow, newCol) := p in
  if newCol >? 0 then (newRow, newCol - 1)
  else if newRow >? 0 then
    let newRow := newRow - 1 in
    let prevLine := lineAt ls newRow in
    let prevLineLength := cpLen prevLine in
    (newRow, if prevLineLength =? 0 then 0 else prevLineLength - 1)
  else (newRow, newCol).

(** [for (let i = 0; i < count; i++) body]: a loop without [break]. *)
Definition repeatSteps {A} (count : Z) (body : A -> A) (init : A) : A :=
  Nat.iter (Z.to_nat count) body init.

Definition vimMoveLeft (state : TextBufferState) (count : Z) : TextBufferState :=
  let '(newRow, newCol) :=
    repeatSteps count (moveLeftStep (lines state))
      (cursorRow state, cursorCol state) in
  moveCursor state newRow newCol None.

(** The target of the vertical motions on row [newRow]. *)
Definition moveVertically (state : TextBufferState) (newRow : Z)
    : TextBufferState :=
  let targetLine := lineAt (lines state) newRow in
  let targetLineLength := cpLen targetLine in
  let newPreferredCol :=
    match preferredCol state with
    | None => cursorCol state
    | Some c => c
    end in
  let newCol :=
    Z.min newPreferredCol
      (if targetLineLength >? 0 then targetLineLength - 1 else 0) in
  moveCursor state newRow newCol (Some newPreferredCol).

Definition vimMoveUp (state : TextBufferState) (count : Z) : TextBufferState :=
  moveVertically state (Z.max 0 (cursorRow state - count)).

Definition vimMoveDown (state : TextBufferState) (count : Z) : TextBufferState :=
  moveVertically state (Z.min (len (lines state) - 1) (cursorRow state + count)).

Definition vimAppendAtCursor (state : TextBufferState) : TextBufferState :=
  let currentLine := lineAt (lines state) (cursorRow state) in
  let newCol :=
    if cursorCol state <? cpLen currentLine then cursorCol state + 1
    else cursorCol state in
  moveCursor state (cursorRow state) newCol None.

Definition vimOpenLineBelow (state : TextBufferState) : TextBufferState :=
  let nextState := pushUndo state in
  let endOfLine := cpLen (lineAt (lines state) (cursorRow state)) in
  replaceRangeInternal nextState (cursorRow state) endOfLine
    (cursorRow state) endOfLine [LF].

Definition vimOpenLineAbove (state : TextBufferState) : TextBufferState :=
  let nextState := pushUndo state in
  let resultState :=
    replaceRangeInternal nextState (cursorRow state) 0 (cursorRow state) 0
      [LF] in
  set_cursorCol (set_cursorRow resultState (cursorRow state)) 0.

(** [while (col < cps.length && /\s/.test(cps[col])) col++] from column 0:
    the number of leading white-space code points. *)
Fixpoint skipSpaces (cps : list jsstring) (col : Z) : Z :=
  match cps with
  | cp :: rest => if testSpace cp then skipSpaces rest (col + 1) else col
  | [] => col
  end.

Definition vimMoveToFirstNonWhitespace (state : TextBufferState)
    : TextBufferState :=
  let currentLine := lineAt (lines state) (cursorRow state) in
  let lineCodePoints := toCodePoints currentLine in
  moveCursor state (cursorRow state) (skipSpaces lineCodePoints 0) None.

Definition vimMoveToLineEnd (state : TextBufferState) : TextBufferState :=
  let lineLength := cpLen (lineAt (lines state) (cursorRow state)) in
  moveCursor state (cursorRow state)
    (if lineLength >? 0 then lineLength - 1 else 0) None.

Definition vimMoveToLine (state : TextBufferState) (lineNumber : Z)
    : TextBufferState :=
  let targetRow :=
    Z.min (Z.max 0 (lineNumber - 1)) (len (lines state) - 1) in
  moveCursor state targetRow 0 None.

Definition vimEscapeInsertMode (state : TextBufferState) : TextBufferState :=
  let newCol := if cursorCol state >? 0 then cursorCol state - 1 else 0 in
  moveCursor state (cursorRow state) newCol None.

(** *** The reducer over a word scanner *)

Section Reducer.

Variable W : WordScanner.

(** [while (i < cps.length && isCombiningMark(cps[i])) i++]. *)
Fixpoint skipMarks (n : nat) (cps : list jsstring) (i : Z) : Z :=
  match n with
  | O => i
  | S n' =>
      if (i <? len cps) && isCombiningMark W (at_ cps i)
      then skipMarks n' cps (i + 1)
      else i
  end.

Definition isAtEndOfBaseWord (lineCodePoints : list jsstring) (col : Z)
    : bool :=
  if negb (isWordCharStrict W (at_ lineCodePoints col)) then false
  else
    let i :=
      skipMarks (Z.to_nat (len lineCodePoints - (col + 1)))
        lineCodePoints (col + 1) in
    (i >=? len lineCodePoints)
    || negb (isWordCharStrict W (at_ lineCodePoints i)).

(** The loop of [vim_delete_word_forward]: [(endRow, endCol)]. *)
Fixpoint deleteWordForwardLoop (n : nat) (ls : list jsstring)
    (endRow endCol : Z) : Z * Z :=
  match n with
  | O => (endRow, endCol)
  | S n' =>
      match findNextWordAcrossLines W ls endRow endCol true with
      | Some (row, col) => deleteWordForwardLoop n' ls row col
      | None =>
          let currentLine := lineAt ls endRow in
          match findWordEndInLine W currentLine endCol with
          | Some wordEnd => (endRow, wordEnd + 1)
          | None => (endRow, cpLen currentLine)
          end
      end
  end.

(** [{...}] after the range of a word deletion is known. *)
Definition deleteRange (state : TextBufferState)
    (startRow startCol endRow endCol : Z) (moved : bool) : TextBufferState :=
  if moved then
    let nextState := pushUndo state in
    replaceRangeInternal nextState startRow startCol endRow endCol []
  else state.

Definition vimDeleteWordForward (state : TextBufferState) (count : Z)
    : TextBufferState :=
  let cursorRow := cursorRow state in
  let cursorCol := cursorCol state in
  let '(endRow, endCol) :=
    deleteWordForwardLoop (Z.to_nat count) (lines state) cursorRow
      cursorCol in
  deleteRange state cursorRow cursorCol endRow endCol
    (negb (endRow =? cursorRow) || negb (endCol =? cursorCol)).

(** The loop of the backward word commands: [(startRow, startCol)]. *)
Fixpoint wordBackwardLoop (n : nat) (ls : list jsstring) (row col : Z)
    : Z * Z :=
  match n with
  | O => (row, col)
  | S n' =>
      match findPrevWordAcrossLines W ls row col with
      | Some (row', col') => wordBackwardLoop n' ls row' col'
      | None => (row, col)
      end
  end.

Definition vimDeleteWordBackward (state : TextBufferState) (count : Z)
    : TextBufferState :=
  let cursorRow := cursorRow state in
  let cursorCol := cursorCol state in
  let '(startRow, startCol) :=
    wordBackwardLoop (Z.to_nat count) (lines state) cursorRow cursorCol in
  deleteRange state startRow startCol cursorRow cursorCol
    (negb (startRow =? cursorRow) || negb (startCol =? cursorCol)).

(** The loop of [vim_delete_word_end]: [(endRow, endCol)]; [n] iterations
    remain, so [i < count - 1] reads [n' <> 0]. *)
Fixpoint deleteWordEndLoop (n : nat) (ls : list jsstring)
    (row col endRow endCol : Z) : Z * Z :=
  match n with
  | O => (endRow, endCol)
  | S n' =>
      match findNextWordAcrossLines W ls row col false with
      | Some (wrow, wcol) =>
          match n' with
          | O => (wrow, wcol + 1)
          | S _ =>
              match findNextWordAcrossLines W ls wrow (wcol + 1) true with
              | Some (nrow, ncol) =>
                  deleteWordEndLoop n' ls nrow ncol wrow (wcol + 1)
              | None => (wrow, wcol + 1)
              end
          end
      | None => (endRow, endCol)
      end
  end.

Definition vimDeleteWordEnd (state : TextBufferState) (count : Z)
    : TextBufferState :=
  let cursorRow := cursorRow state in
  let cursorCol := cursorCol state in
  let ls := lines state in
  let '(endRow, endCol) :=
    deleteWordEndLoop (Z.to_nat count) ls cursorRow cursorCol cursorRow
      cursorCol in
  let endCol :=
    if endRow <? len ls
    then Z.min endCol (cpLen (lineAt ls endRow))
    else endCol in
  deleteRange state cursorRow cursorCol endRow endCol
    (negb (endRow =? cursorRow) || negb (endCol =? cursorCol)).

(** [while (newCol < cps.length && isCombiningMark(cps[newCol]) &&
    newCol < lineLength - 1) newCol++]. *)
Fixpoint skipMarksBefore (n : nat) (cps : list jsstring)
    (lineLength newCol : Z) : Z :=
  match n with
  | O => newCol
  | S n' =>
      if (newCol <? len cps) && isCombiningMark W (at_ cps newCol)
         && (newCol <? lineLength - 1)
      then skipMarksBefore n' cps lineLength (newCol + 1)
      else newCol
  end.

(** One iteration of the loop of [vim_move_right]. *)
Definition moveRightStep (ls : list jsstring) (p : Z * Z) : Z * Z :=
  let '(newRow, newCol) := p in
  let currentLine := lineAt ls newRow in
  let lineLength := cpLen currentLine in
  if lineLength =? 0 then
    if newRow <? len ls - 1 then (newRow + 1, 0) else (newRow, newCol)
  else if newCol <? lineLength - 1 then
    let newCol := newCol + 1 in
    let currentLinePoints := toCodePoints currentLine in
    (newRow,
     skipMarksBefore (Z.to_nat (lineLength - 1 - newCol)) currentLinePoints
       lineLength newCol)
  else if newRow <? len ls - 1 then (newRow + 1, 0)
  else (newRow, newCol).

Definition vimMoveRight (state : TextBufferState) (count : Z)
    : TextBufferState :=
  let '(newRow, newCol) :=
    repeatSteps count (moveRightStep (lines state))
      (cursorRow state, cursorCol state) in
  moveCursor state newRow newCol None.

(** The loop of [vim_move_word_forward]. *)
Fixpoint wordForwardLoop (n : nat) (ls : list jsstring) (row col : Z)
    : Z * Z :=
  match n with
  | O => (row, col)
  | S n' =>
      match findNextWordAcrossLines W ls row col true with
      | Some (row', col') => wordForwardLoop n' ls row' col'
      | None => (row, col)
      end
  end.

Definition vimMoveWordForward (state : TextBufferState) (count : Z)
    : TextBufferState :=
  let '(row, col) :=
    wordForwardLoop (Z.to_nat count) (lines state) (cursorRow state)
      (cursorCol state) in
  moveCursor state row col None.

Definition vimMoveWordBackward (state : TextBufferState) (count : Z)
    : TextBufferState :=
  let '(row, col) :=
    wordBackwardLoop (Z.to_nat count) (lines state) (cursorRow state)
      (cursorCol state) in
  moveCursor state row col None.

(** [atEndOfWord] of the first iteration of [vim_move_word_end]. *)
Definition atEndOfWord (ls : list jsstring) (row col : Z) : bool :=
  let currentLine := lineAt ls row in
  let lineCodePoints := toCodePoints currentLine in
  (col <? len lineCodePoints)
  && isWordCharStrict W (at_ lineCodePoints col)
  && ((col + 1 >=? len lineCodePoints)
      || negb (isWordCharWithCombining W (at_ lineCodePoints (col + 1)))
      || (isWordCharStrict W (at_ lineCodePoints col)
          && isAtEndOfBaseWord lineCodePoints col)).

(** The iterations of [vim_move_word_end] after the special handling of
    the first one. *)
Fixpoint wordEndLoop (n : nat) (ls : list jsstring) (row col : Z) : Z * Z :=
  match n with
  | O => (row, col)
  | S n' =>
      match findNextWordAcrossLines W ls row col false with
      | Some (row', col') => wordEndLoop n' ls row' col'
      | None => (row, col)
      end
  end.

(** The loop of [vim_move_word_end]; its first iteration jumps to the next
    word end when the cursor is on the end of a word ([continue]). *)
Definition moveWordEndLoop (n : nat) (ls : list jsstring) (row col : Z)
    : Z * Z :=
  match n with
  | O => (row, col)
  | S n' =>
      if atEndOfWord ls row col then
        match findNextWordAcrossLines W ls row (col + 1) false with
        | Some (row', col') => wordEndLoop n' ls row' col'
        | None => wordEndLoop n ls row col
        end
      else wordEndLoop n ls row col
  end.

Definition vimMoveWordEnd (state : TextBufferState) (count : Z)
    : TextBufferState :=
  let '(row, col) :=
    moveWordEndLoop (Z.to_nat count) (lines state) (cursorRow state)
      (cursorCol state) in
  moveCursor state row col None.

Definition vimDeleteChar (state : TextBufferState) (count : Z)
    : TextBufferState :=
  match selectionAnchor state with
  | Some anchor =>
      let nextState := pushUndo state in
      let '(startRow, startCol, endRow, endCol) :=
        selectionRange anchor (cursorRow state) (cursorCol state) in
      set_selectionAnchor
        (replaceRangeInternal nextState startRow startCol endRow
           (endCol + 1) [])
        None
  | None =>
      let currentLine := lineAt (lines state) (cursorRow state) in
      let lineLength := cpLen currentLine in
      if cursorCol state <? lineLength then
        let deleteCount := Z.min count (lineLength - cursorCol state) in
        let nextState := pushUndo state in
        replaceRangeInternal nextState (cursorRow state) (cursorCol state)
          (cursorRow state) (cursorCol state + deleteCount) []
      else state
  end.

(** [handleVimAction(state, action)]. *)
Definition handleVimAction (state : TextBufferState) (action : VimAction)
    : Outcome :=
  match action with
  | vim_delete_word_forward count
  | vim_change_word_forward count =>
      Returned (vimDeleteWordForward state count)
  | vim_delete_word_backward count
  | vim_change_word_backward count =>
      Returned (vimDeleteWordBackward state count)
  | vim_delete_word_end count
  | vim_change_word_end count => Returned (vimDeleteWordEnd state count)
  | vim_delete_line count => Returned (vimDeleteLine state count)
  | vim_change_line count => Returned (vimChangeLine state count)
  | vim_delete_to_end_of_line
  | vim_change_to_end_of_line => Returned (vimDeleteToEndOfLine state)
  | vim_change_movement movement count =>
      Returned (vimChangeMovement state movement count)
  | vim_move_left count => Returned (vimMoveLeft state count)
  | vim_move_right count => Returned (vimMoveRight state count)
  | vim_move_up count => Returned (vimMoveUp state count)
  | vim_move_down count => Returned (vimMoveDown state count)
  | vim_move_word_forward count => Returned (vimMoveWordForward state count)
  | vim_move_word_backward count =>
      Returned (vimMoveWordBackward state count)
  | vim_move_word_end count => Returned (vimMoveWordEnd state count)
  | vim_delete_char count => Returned (vimDeleteChar state count)
  | vim_insert_at_cursor => Returned state
  | vim_append_at_cursor => Returned (vimAppendAtCursor state)
  | vim_open_line_below => Returned (vimOpenLineBelow state)
  | vim_open_line_above => Returned (vimOpenLineAbove state)
  | vim_append_at_line_end =>
      Returned
        (moveCursor state (cursorRow state)
           (cpLen (lineAt (lines state) (cursorRow state))) None)
  | vim_insert_at_line_start
  | vim_move_to_first_nonwhitespace =>
      Returned (vimMoveToFirstNonWhitespace state)
  | vim_move_to_line_start =>
      Returned (moveCursor state (cursorRow state) 0 None)
  | vim_move_to_line_end => Returned (vimMoveToLineEnd state)
  | vim_move_to_first_line => Returned (moveCursor state 0 0 None)
  | vim_move_to_last_line =>
      Returned (moveCursor state (len (lines state) - 1) 0 None)
  | vim_move_to_line lineNumber => Returned (vimMoveToLine state lineNumber)
  | vim_escape_insert_mode => Returned (vimEscapeInsertMode state)
  | vim_set_selection_anchor =>
      Returned
        (set_selectionAnchor state
           (Some (cursorRow state, cursorCol state)))
  | vim_clear_selection => Returned (set_selectionAnchor state None)
  | vim_search query direction => vimSearch state query direction
  | vim_search_next direction => vimSearchNext state direction
  | vim_yank text => Returned (set_clipboard state (Some text))
  | vim_yank_selection => Returned (vimYankSelection state)
  | vim_paste direction => Returned (vimPaste state direction)
  end.

End Reducer.

(** ** A word scanner

    An implementation of the scanner, for the examples. *)

Module Words.

(** The scalar value of a single-codepoint string. *)
Definition codePointValue (cp : jsstring) : N :=
  match cp with
  | [u] => u
  | [hi; lo] => (65536 + (hi - 55296) * 1024 + (lo - 56320))%N
  | _ => 0%N
  end.

Definition inRange (lo hi v : N) : bool := ((lo <=? v) && (v <=? hi))%N.

(** Modelled from the spec: [isWordCharStrict] of text-buffer.ts, whose code
    is missing.  Spec 4.2, [isWordChar]: letters, digits and the underscore;
    here the letters of the Latin blocks. *)
Definition wordValue (v : N) : bool :=
  inRange 48 57 v || inRange 65 90 v || (v =? 95)%N || inRange 97 122 v
  || (inRange 192 591 v && negb (v =? 215)%N && negb (v =? 247)%N).

(** Modelled from the spec: [isCombiningMark] of text-buffer.ts, whose code
    is missing.  Spec 4.2: the zero-width combining codepoints, here the
    combining diacritical blocks. *)
Definition markValue (v : N) : bool :=
  inRange 768 879 v || inRange 6832 6911 v || inRange 7616 7679 v
  || inRange 8400 8447 v || inRange 65056 65071 v.

Definition wordChar (cp : option jsstring) : bool :=
  match cp with Some c => wordValue (codePointValue c) | None => false end.
Definition combiningMark (cp : option jsstring) : bool :=
  match cp with Some c => markValue (codePointValue c) | None => false end.
Definition wordCharWithCombining (cp : option jsstring) : bool :=
  wordChar cp || combiningMark cp.

(** Length of the longest prefix whose elements satisfy [f]. *)
Fixpoint run {A} (f : A -> bool) (l : list A) : nat :=
  match l with
  | x :: r => if f x then S (run f r) else O
  | [] => O
  end.

Definition inWord (cp : jsstring) : bool := wordCharWithCombining (Some cp).
Definition notBase (cp : jsstring) : bool := negb (wordChar (Some cp)).
Definition isMark (cp : jsstring) : bool := combiningMark (Some cp).

(** Modelled from the spec: [findWordEndInLine] of text-buffer.ts, whose code
    is missing.  Spec 4.3, [wordEndInLine]: the last codepoint of the word
    containing or following [col], within one line; spec 4.2: trailing
    combining marks belong to the base character before them, so the end of
    a word is its last base character. *)
Definition wordEndInLine (line : jsstring) (col : Z) : option Z :=
  let rest := skipn (Z.to_nat col) (toCodePoints line) in
  let gap := run notBase rest in
  let word := run inWord (skipn gap rest) in
  let marks := run isMark (rev (firstn word (skipn gap rest))) in
  if (word =? 0)%nat then None
  else Some (Z.max col 0 + Z.of_nat gap + Z.of_nat word - Z.of_nat marks - 1).

(** Modelled from the spec: helper of [findNextWordAcrossLines] (code
    missing).  Spec 4.3: the start of the next word of the line after [col],
    skipping the rest of the word under [col] and the separators that follow
    it. *)
Definition wordStartInLine (line : jsstring) (col : Z) : option Z :=
  let rest := skipn (Z.to_nat col) (toCodePoints line) in
  let word := run inWord rest in
  let gap := run notBase (skipn word rest) in
  let c := Z.max col 0 + Z.of_nat word + Z.of_nat gap in
  if c <? cpLen line then Some c else None.

(** Modelled from the spec: helper of [findNextWordAcrossLines] (code
    missing).  The start of the first word of a line. *)
Definition firstWordStart (line : jsstring) : option Z :=
  let gap := run notBase (toCodePoints line) in
  if Z.of_nat gap <? cpLen line then Some (Z.of_nat gap) else None.

(** First line, from row [row] on, in which [f] finds a column. *)
Fixpoint firstInLines (f : jsstring -> option Z) (ls : list jsstring)
    (row : Z) : option (Z * Z) :=
  match ls with
  | [] => None
  | l :: rest =>
      match f l with
      | Some c => Some (row, c)
      | None => firstInLines f rest (row + 1)
      end
  end.

(** Modelled from the spec: [findNextWordAcrossLines] of text-buffer.ts,
    whose code is missing.  Spec 4.3, [nextWordStart]: a forward scan that
    crosses line boundaries and returns none at the end of the document; the
    reducer asks for the start of the next word ([true]) or for the end of
    a word behind [col] ([false]). *)
Definition nextWordAcrossLines (ls : list jsstring) (row col : Z)
    (searchForWordStart : bool) : option (Z * Z) :=
  let inLine :=
    if searchForWordStart then wordStartInLine (lineAt ls row) col
    else wordEndInLine (lineAt ls row) (col + 1) in
  match inLine with
  | Some c => Some (row, c)
  | None =>
      firstInLines
        (fun l => if searchForWordStart then firstWordStart l
                  else wordEndInLine l 0)
        (skipn (Z.to_nat (row + 1)) ls) (Z.max (row + 1) 0)
  end.

(** Modelled from the spec: helper of [findPrevWordAcrossLines] (code
    missing).  The start of the word that ends before [col] in the line. *)
Definition wordStartBefore (line : jsstring) (col : Z) : option Z :=
  let before := rev (firstn (Z.to_nat col) (toCodePoints line)) in
  let gap := run (fun c => negb (inWord c)) before in
  let word := run inWord (skipn gap before) in
  if (word =? 0)%nat then None
  else Some (len before - Z.of_nat gap - Z.of_nat word).

(** Modelled from the spec: [findPrevWordAcrossLines] of text-buffer.ts,
    whose code is missing.  Spec 4.3, [prevWordStart]: the symmetric
    backward scan, none at the start of the document. *)
Definition prevWordAcrossLines (ls : list jsstring) (row col : Z)
    : option (Z * Z) :=
  match wordStartBefore (lineAt ls row) col with
  | Some c => Some (row, c)
  | None =>
      match
        firstInLines (fun l => wordStartBefore l (cpLen l))
          (rev (firstn (Z.to_nat row) ls)) 0
      with
      | Some (back, c) => Some (row - 1 - back, c)
      | None => None
      end
  end.

Definition scanner : WordScanner :=
  {| isWordCharStrict := wordChar;
     isWordCharWithCombining := wordCharWithCombining;
     isCombiningMark := combiningMark;
     findNextWordAcrossLines := nextWordAcrossLines;
     findPrevWordAcrossLines := prevWordAcrossLines;
     findWordEndInLine := wordEndInLine |}.

End Words.

(** A state with the given lines and cursor and nothing else. *)
Definition mkState (ls : list jsstring) (row col : Z) : TextBufferState :=
  {| lines := ls; cursorRow := row; cursorCol := col; preferredCol := None;
     selectionAnchor := None; clipboard := None; lastSearchQuery := None;
     undoStack := []; redoStack := [] |}.

(** ** Notions used in the properties *)

(** The column that vertical motions aim at. *)
Definition stickyCol (s : TextBufferState) : Z :=
  match preferredCol s with
  | Some c => c
  | None => cursorCol s
  end.

(** The command left lines, cursor, sticky column and history alone. *)
Definition unchanged (s s' : TextBufferState) : Prop :=
  lines s' = lines s /\ cursorRow s' = cursorRow s
  /\ cursorCol s' = cursorCol s /\ preferredCol s' = preferredCol s
  /\ undoStack s' = undoStack s.

(** The command moved the cursor without a snapshot. *)
Definition moved (s s' : TextBufferState) : Prop :=
  lines s' = lines s /\ undoStack s' = undoStack s /\ preferredCol s' = None.

(** The command moved the cursor vertically. *)
Definition movedVertically (s s' : TextBufferState) : Prop :=
  lines s' = lines s /\ undoStack s' = undoStack s
  /\ preferredCol s' = Some (stickyCol s).

(** The command took a snapshot and edited the lines. *)
Definition edited (s s' : TextBufferState) : Prop :=
  undoStack s' = snapshot s :: undoStack s /\ preferredCol s' = None
  /\ lines s' <> [].

(** The vertical motions. *)
Definition isVertical (a : VimAction) : bool :=
  match a with
  | vim_move_up _ | vim_move_down _ => true
  | _ => false
  end.

(** What a command other than a vertical motion does to a state. *)
Definition shape (s s' : TextBufferState) : Prop :=
  unchanged s s' \/ moved s s' \/ edited s s'.

(** The two search commands. *)
Definition isSearch (a : VimAction) : bool :=
  match a with
  | vim_search _ _ | vim_search_next _ => true
  | _ => false
  end.

(** Last column of a line on which the cursor may rest in normal mode. *)
Definition lastCol (line : jsstring) : Z :=
  if cpLen line >? 0 then cpLen line - 1 else 0.


(** The cursor is on a row of the buffer and on or behind a code point of
    that row. *)
Definition cursorValid (s : TextBufferState) : Prop :=
  0 <= cursorRow s < len (lines s)
  /\ 0 <= cursorCol s <= cpLen (lineAt (lines s) (cursorRow s)).

(** A line of two emoji (each a surrogate pair) and the letter "b". *)
Definition twoEmojiAndB : jsstring := [55357; 56832; 55357; 56832; 98]%N.

(** The query occurs in the line at offset [c], counted in code units. *)
Definition occursAt (q line : jsstring) (c : Z) : Prop :=
  exists pre post, line = pre ++ q ++ post /\ len pre = c.

(** The start position of [indexOf]. *)
Definition searchStart (s : jsstring) (from : Z) : Z := clamp from 0 (len s).

(** The query occurs in row [r] of the buffer at offset [c]. *)
Definition matchAt (ls : list jsstring) (q : jsstring) (r c : Z) : Prop :=
  exists line, at_ ls r = Some line /\ occursAt q line c.




(** Position [(r, c)] is not behind [(r', c')]: row first, then col. *)
Definition posLe (r c r' c' : Z) : Prop := r < r' \/ (r = r' /\ c <= c').

(** The [n] row numbers from [a] on. *)
Fixpoint rowsFrom (a : Z) (n : nat) : list Z :=
  match n with
  | O => []
  | S n' => a :: rowsFrom (a + 1) n'
  end.

(** The row numbers [r] with [a < r < b]. *)
Definition rowsInside (a b : Z) : list Z :=
  rowsFrom (a + 1) (Z.to_nat (b - (a + 1))).

(** The text of the buffer from [(sr, sc)] up to, and without, [(er, ec)]:
    the rest of the first row, the rows in between and the beginning of the
    last row, each row but the last followed by a line break. *)
Definition textBetween (ls : list jsstring) (sr sc er ec : Z) : jsstring :=
  if sr =? er then cpSlice (lineAt ls sr) sc ec
  else
    cpSliceFrom (lineAt ls sr) sc ++ [LF]
    ++ concat (map (fun r => lineAt ls r ++ [LF]) (rowsInside sr er))
    ++ cpSlice (lineAt ls er) 0 ec.

(** No line of the buffer holds a line break. *)
Definition linesAreLines (ls : list jsstring) : Prop :=
  forall line, In line ls -> ~ In LF line.

(** Position [(r, c)] is on a row of the buffer, on or behind a code point
    of that row. *)
Definition posValid (ls : list jsstring) (r c : Z) : Prop :=
  0 <= r < len ls /\ 0 <= c <= cpLen (lineAt ls r).

(** The motions that look neither at words nor at the sticky column. *)
Definition isPlainMotion (a : VimAction) : bool :=
  match a with
  | vim_move_left _ | vim_move_right _ | vim_append_at_cursor
  | vim_append_at_line_end | vim_insert_at_line_start
  | vim_move_to_line_start | vim_move_to_line_end
  | vim_move_to_first_nonwhitespace | vim_move_to_first_line
  | vim_move_to_last_line | vim_move_to_line _ | vim_escape_insert_mode => true
  | _ => false
  end.

(** The line holds no high surrogate, hence no surrogate pair. *)
Definition noSurrogates (line : jsstring) : Prop :=
  forall u, In u line -> isHighSurrogate u = false.

(** The state with anchor and cursor exchanged. *)
Definition swapSelection (s : TextBufferState) (ar ac : Z) : TextBufferState :=
  set_selectionAnchor (set_cursorCol (set_cursorRow s ar) ac)
    (Some (cursorRow s, cursorCol s)).





(** An edit command had nothing to do and returned the state itself, or it
    took a snapshot and cleared the sticky column. *)
Definition nothingDoneOrEdited (s s' : TextBufferState) : Prop :=
  s' = s
  \/ (undoStack s' = snapshot s :: undoStack s /\ preferredCol s' = None).

(** * Properties *)

(** ** Moving left across a line start *)

Lemma repeatSteps_once :
  forall (A : Type) (body : A -> A) (init : A),
    repeatSteps 1 body init = body init.
Proof. reflexivity. Qed.

(** C10: with the cursor in column 0 of a row after the first, [vim_move_left]
    with count 1 moves to the previous row, onto the last character of that
    line (column 0 when the line is empty), and leaves the lines, the
    clipboard and the undo stack as they are. *)
Theorem move_left_wraps_to_previous_line :
  forall (W : WordScanner) (s : TextBufferState),
    cursorCol s = 0 ->
    cursorRow s > 0 ->
    let previousLine := lineAt (lines s) (cursorRow s - 1) in
    exists s',
      handleVimAction W s (vim_move_left 1) = Returned s'
      /\ cursorRow s' = cursorRow s - 1
      /\ (cpLen previousLine > 0 -> cursorCol s' = cpLen previousLine - 1)
      /\ (cpLen previousLine = 0 -> cursorCol s' = 0)
      /\ lines s' = lines s
      /\ clipboard s' = clipboard s
      /\ undoStack s' = undoStack s.
Proof.
  intros W s Hcol Hrow previousLine.
  cbn [handleVimAction]. unfold vimMoveLeft.
  rewrite repeatSteps_once. unfold moveLeftStep.
  rewrite Hcol. change (0 >? 0) with false. cbv iota.
  destruct (cursorRow s >? 0) eqn:Hgt; [| lia].
  fold previousLine.
  eexists. split; [reflexivity |].
  cbn [moveCursor set_preferredCol set_cursorCol set_cursorRow cursorRow
         cursorCol lines clipboard undoStack].
  repeat split.
  - intro Hlen. destruct (cpLen previousLine =? 0) eqn:E; lia.
  - intro Hlen. rewrite Hlen. reflexivity.
Qed.

Lemma move_left_wraps_example :
  exists s',
    handleVimAction Words.scanner (mkState [lit "ab"; lit "c"] 1 0)
      (vim_move_left 1) = Returned s'
    /\ cursorRow s' = 0 /\ cursorCol s' = 1.
Proof.
  destruct (move_left_wraps_to_previous_line Words.scanner
              (mkState [lit "ab"; lit "c"] 1 0))
    as (s' & Hrun & Hr & Hc & _); [reflexivity | reflexivity |].
  exists s'. split; [exact Hrun |]. split; [exact Hr |].
  apply Hc. vm_compute. reflexivity.
Defined.

(** ** What a command does to the lines, the history and the sticky column *)

Create HintDb shape.

Lemma unchanged_refl : forall s, unchanged s s.
Proof. intro s. repeat split. Qed.

Lemma splitLF_nonempty : forall t, splitLF t <> [].
Proof.
  induction t as [| c r IH]; cbn [splitLF]; [discriminate |].
  destruct (N.eqb c LF); [discriminate |].
  destruct (splitLF r); discriminate.
Qed.

Lemma replaceRange_lines_nonempty :
  forall s a b c d t, lines (replaceRangeInternal s a b c d t) <> [].
Proof.
  intros s a b c d t. unfold replaceRangeInternal. cbn.
  intro H. apply app_eq_nil in H as [_ H].
  apply app_eq_nil in H as [H _]. exact (splitLF_nonempty _ H).
Qed.

Lemma edited_replaceRange :
  forall s a b c d t, edited s (replaceRangeInternal (pushUndo s) a b c d t).
Proof.
  intros. split; [reflexivity |]. split; [reflexivity |].
  apply replaceRange_lines_nonempty.
Qed.

Lemma edited_replaceLines :
  forall s r n, edited s (replaceLines (pushUndo s) r n).
Proof.
  intros s r n. unfold replaceLines.
  destruct (getLineRangeOffsets r n (lines (pushUndo s))) as [so eo].
  destruct (getPositionFromOffsets so eo (lines (pushUndo s)))
    as [[[sr sc] er] ec].
  apply edited_replaceRange.
Qed.

Lemma edited_set_cursor :
  forall s s' r c, edited s s' -> edited s (set_cursorCol (set_cursorRow s' r) c).
Proof. intros s s' r c (Hu & Hp & Hl). repeat split; assumption. Qed.

Lemma edited_set_anchor :
  forall s s' v, edited s s' -> edited s (set_selectionAnchor s' v).
Proof. intros s s' v (Hu & Hp & Hl). repeat split; assumption. Qed.

Lemma moved_moveCursor : forall s r c, moved s (moveCursor s r c None).
Proof. intros. repeat split. Qed.

Lemma movedVertically_moveVertically :
  forall s r, movedVertically s (moveVertically s r).
Proof. intros. repeat split. Qed.

#[local] Hint Resolve unchanged_refl edited_replaceRange edited_replaceLines
  edited_set_cursor edited_set_anchor moved_moveCursor : shape.

Lemma len_nonneg : forall (A : Type) (l : list A), 0 <= len l.
Proof. intros. unfold len. lia. Qed.

Lemma len_nil_iff : forall (A : Type) (l : list A), len l = 0 <-> l = [].
Proof.
  intros A l. unfold len. destruct l; cbn [length]; split; intro H;
    try reflexivity; try discriminate; lia.
Qed.

Lemma relIndex_bounds : forall i n, 0 <= n -> 0 <= relIndex i n <= n.
Proof. intros i n Hn. unfold relIndex. destruct (Z.ltb_spec i 0); lia. Qed.

(** Deleting fewer lines than there are leaves some. *)
Lemma splice_delete_nonempty :
  forall (ls : list jsstring) (start dc : Z),
    0 < len ls -> dc < len ls -> splice ls start dc [] <> [].
Proof.
  intros ls start dc Hpos Hdc. unfold splice. cbn [app].
  pose proof (len_nonneg _ ls) as Hlen.
  pose proof (relIndex_bounds start (len ls) Hlen) as Hfrom.
  generalize dependent (relIndex start (len ls)). intros from Hfrom.
  intro H. apply (f_equal (@length _)) in H.
  rewrite length_app, length_firstn, length_skipn in H. cbn [length] in H.
  unfold len in *. lia.
Qed.

Lemma shape_unchanged : forall s, shape s s.
Proof. intro s. left. apply unchanged_refl. Qed.

Lemma shape_moved : forall s s', moved s s' -> shape s s'.
Proof. intros s s' H. right. left. exact H. Qed.

Lemma shape_edited : forall s s', edited s s' -> shape s s'.
Proof. intros s s' H. right. right. exact H. Qed.

#[local] Hint Resolve shape_unchanged shape_moved shape_edited : shape.

Lemma shape_deleteLine : forall s count, shape s (vimDeleteLine s count).
Proof.
  intros s count. unfold vimDeleteLine.
  destruct (len (lines s) =? 0) eqn:E0; [apply shape_unchanged |].
  apply shape_edited.
  destruct ((len (lines s) =? 1)
            || (Z.min count (len (lines s) - cursorRow s) >=? len (lines s)))
    eqn:E1.
  - repeat split. discriminate.
  - repeat split. cbn.
    apply orb_false_iff in E1 as [_ E1].
    apply Z.eqb_neq in E0. pose proof (len_nonneg _ (lines s)).
    apply splice_delete_nonempty; lia.
Qed.

Lemma shape_changeLine : forall s count, shape s (vimChangeLine s count).
Proof.
  intros s count. unfold vimChangeLine.
  destruct (len (lines s) =? 0); auto with shape.
Qed.

Lemma shape_deleteToEndOfLine : forall s, shape s (vimDeleteToEndOfLine s).
Proof.
  intro s. unfold vimDeleteToEndOfLine.
  destruct (cursorCol s <? _); auto with shape.
Qed.

Lemma shape_changeMovement :
  forall s m count, shape s (vimChangeMovement s m count).
Proof.
  intros s m count. unfold vimChangeMovement.
  destruct m; auto with shape.
  - destruct (_ >? 0); auto with shape.
    destruct (_ =? 1); auto with shape.
  - destruct (_ >? 0); auto with shape.
    destruct (_ =? 1); auto with shape.
Qed.

Lemma shape_paste : forall s d, shape s (vimPaste s d).
Proof.
  intros s d. unfold vimPaste.
  destruct (negb (truthy (clipboard s))); auto with shape.
  destruct d.
  - destruct (_ && _); auto with shape.
  - destruct (includes _ _); auto with shape.
    destruct (endsWith _ _); auto with shape.
Qed.

Lemma shape_yankSelection : forall s, shape s (vimYankSelection s).
Proof.
  intro s. unfold vimYankSelection.
  destruct (selectionAnchor s) as [anchor |]; auto with shape.
  destruct (selectionRange anchor (cursorRow s) (cursorCol s))
    as [[[sr sc] er] ec].
  left. repeat split.
Qed.

Lemma shape_search :
  forall s q d s', vimSearch s q d = Returned s' -> shape s s'.
Proof.
  intros s q d s'. unfold vimSearch.
  destruct (searchScan _ _ _ _ _) as [[fr fc] |]; [| discriminate].
  destruct (negb (fr =? -1)); intro H; injection H as <-.
  - right. left. repeat split.
  - left. repeat split.
Qed.

Lemma shape_searchNext :
  forall s d s', vimSearchNext s d = Returned s' -> shape s s'.
Proof.
  intros s d s'. unfold vimSearchNext.
  destruct (negb (truthy (lastSearchQuery s))).
  - intro H; injection H as <-. apply shape_unchanged.
  - destruct (searchScan _ _ _ _ _) as [[fr fc] |]; [| discriminate].
    destruct (negb (fr =? -1)); intro H; injection H as <-;
      auto with shape.
Qed.

Section ReducerShape.

Variable W : WordScanner.

Lemma shape_deleteRange :
  forall s a b c d m, shape s (deleteRange s a b c d m).
Proof. intros. unfold deleteRange. destruct m; auto with shape. Qed.

Lemma shape_deleteWordForward :
  forall s count, shape s (vimDeleteWordForward W s count).
Proof.
  intros. unfold vimDeleteWordForward.
  destruct (deleteWordForwardLoop _ _ _ _ _). apply shape_deleteRange.
Qed.

Lemma shape_deleteWordBackward :
  forall s count, shape s (vimDeleteWordBackward W s count).
Proof.
  intros. unfold vimDeleteWordBackward.
  destruct (wordBackwardLoop _ _ _ _ _). apply shape_deleteRange.
Qed.

Lemma shape_deleteWordEnd :
  forall s count, shape s (vimDeleteWordEnd W s count).
Proof.
  intros. unfold vimDeleteWordEnd.
  destruct (deleteWordEndLoop _ _ _ _ _ _ _). apply shape_deleteRange.
Qed.

Lemma shape_deleteChar : forall s count, shape s (vimDeleteChar s count).
Proof.
  intros. unfold vimDeleteChar.
  destruct (selectionAnchor s) as [anchor |].
  - destruct (selectionRange _ _ _) as [[[sr sc] er] ec]. auto with shape.
  - destruct (_ <? _); auto with shape.
Qed.

(** Every command other than a vertical motion leaves the state alone,
    moves the cursor, or takes a snapshot and edits; a vertical motion
    moves the cursor and remembers the sticky column. *)
Lemma handleVimAction_shape :
  forall s a s',
    handleVimAction W s a = Returned s' ->
    if isVertical a then movedVertically s s' else shape s s'.
Proof.
  intros s a s' H.
  destruct a; cbn [handleVimAction isVertical] in *;
    try (injection H as <-);
    try apply shape_deleteWordForward;
    try apply shape_deleteWordBackward;
    try apply shape_deleteWordEnd;
    try apply shape_deleteLine;
    try apply shape_changeLine;
    try apply shape_deleteToEndOfLine;
    try apply shape_changeMovement;
    try apply shape_deleteChar;
    try apply shape_paste;
    try apply shape_yankSelection;
    try apply movedVertically_moveVertically;
    try (eapply shape_search; eassumption);
    try (eapply shape_searchNext; eassumption);
    try apply shape_unchanged;
    try (apply shape_moved; apply moved_moveCursor);
    try (left; repeat split; fail).
  - unfold vimMoveLeft. destruct (repeatSteps _ _ _). auto with shape.
  - unfold vimMoveRight. destruct (repeatSteps _ _ _). auto with shape.
  - unfold vimMoveWordForward. destruct (wordForwardLoop _ _ _ _ _).
    auto with shape.
  - unfold vimMoveWordBackward. destruct (wordBackwardLoop _ _ _ _ _).
    auto with shape.
  - unfold vimMoveWordEnd. destruct (moveWordEndLoop _ _ _ _ _).
    auto with shape.
  - unfold vimOpenLineBelow. auto with shape.
  - unfold vimOpenLineAbove. auto with shape.
Qed.

End ReducerShape.

(** ** The search never fails on a valid cursor row *)

Lemma at_some :
  forall (A : Type) (xs : list A) (i : Z),
    0 <= i < len xs -> exists x, at_ xs i = Some x.
Proof.
  intros A xs i Hi. unfold at_.
  destruct (Z.ltb_spec i 0); [lia |].
  destruct (nth_error xs (Z.to_nat i)) eqn:E; [eauto |].
  apply nth_error_None in E. unfold len in Hi. lia.
Qed.

Lemma searchBelow_total :
  forall n ls q i, 0 <= i -> exists r, searchBelow n ls q i = Some r.
Proof.
  induction n as [| n IH]; intros ls q i Hi; cbn [searchBelow]; [eauto |].
  destruct (Z.ltb_spec i (len ls)); [| eauto].
  destruct (at_some _ ls i) as [line ->]; [lia |].
  destruct (negb _); [eauto |]. apply IH. lia.
Qed.

Lemma searchWrap_total :
  forall n ls q row col i,
    0 <= i -> row < len ls ->
    exists r, searchWrap n ls q row col i = Some r.
Proof.
  induction n as [| n IH]; intros ls q row col i Hi Hrow; cbn [searchWrap];
    [eauto |].
  destruct (Z.leb_spec i row); [| eauto].
  destruct (at_some _ ls i) as [line ->]; [lia |].
  destruct (_ && _); [eauto |]. apply IH; lia.
Qed.

Lemma searchScan_total :
  forall ls row col q d,
    0 <= row < len ls -> exists r, searchScan ls row col q d = Some r.
Proof.
  intros ls row col q d Hrow. unfold searchScan.
  destruct d; [| eauto].
  destruct (negb _); [eauto |].
  destruct (searchBelow_total (Z.to_nat (len ls - (row + 1))) ls q (row + 1))
    as [[fr fc] ->]; [lia |].
  destruct (fr =? -1); [| eauto].
  apply searchWrap_total; lia.
Qed.

(** On a state whose cursor row is a row of the buffer, every command
    returns a state. *)
Lemma handleVimAction_returns :
  forall (W : WordScanner) s a,
    0 <= cursorRow s < len (lines s) ->
    exists s', handleVimAction W s a = Returned s'.
Proof.
  intros W s a Hrow.
  destruct a; cbn [handleVimAction]; try (eexists; reflexivity).
  - unfold vimSearch.
    destruct (searchScan_total (lines s) (cursorRow s) (cursorCol s) query
                direction Hrow) as [[fr fc] ->].
    destruct (negb _); eexists; reflexivity.
  - unfold vimSearchNext.
    destruct (negb (truthy _)); [eexists; reflexivity |].
    destruct (searchScan_total (lines s) (cursorRow s) (cursorCol s)
                (orEmpty (lastSearchQuery s)) direction Hrow) as [[fr fc] ->].
    destruct (negb _); eexists; reflexivity.
Qed.

(** A command other than the two searches returns on every state. *)
Lemma handleVimAction_returns_unless_search :
  forall (W : WordScanner) s a,
    isSearch a = false -> exists s', handleVimAction W s a = Returned s'.
Proof.
  intros W s a Ha.
  destruct a; cbn [handleVimAction]; try (eexists; reflexivity);
    discriminate Ha.
Qed.

(** ** The lines are never emptied *)

Lemma shape_lines_nonempty :
  forall s s', shape s s' -> lines s <> [] -> lines s' <> [].
Proof.
  intros s s' [(Hl & _) | [(Hl & _) | (_ & _ & Hl)]] Hne;
    try (rewrite Hl; exact Hne); exact Hl.
Qed.

Lemma skipn_len :
  forall (A : Type) (l : list A), skipn (Z.to_nat (len l)) l = [].
Proof.
  intros. unfold len. rewrite Nat2Z.id. apply skipn_all.
Qed.

(** C1, as the reducer has it: no command empties [lines], and on a valid
    cursor row every command returns. A [vim_delete_line] that covers every
    line of the buffer (a one-line buffer, or the cursor on the first row and
    a count of at least the number of lines) leaves exactly one empty line
    with the cursor at (0,0); from a later row, a count that covers every
    remaining line removes those lines only and puts the cursor on the line
    above them, in column 0. *)
Theorem lines_never_empty :
  forall (W : WordScanner) s a,
    lines s <> [] ->
    (forall s', handleVimAction W s a = Returned s' -> lines s' <> [])
    /\ (0 <= cursorRow s < len (lines s) ->
        exists s', handleVimAction W s a = Returned s')
    /\ (forall count,
          len (lines s) = 1
          \/ (cursorRow s <= 0 /\ len (lines s) <= count) ->
          exists s',
            handleVimAction W s (vim_delete_line count) = Returned s'
            /\ lines s' = [[]] /\ cursorRow s' = 0 /\ cursorCol s' = 0)
    /\ (forall count,
          0 < cursorRow s < len (lines s) ->
          len (lines s) - cursorRow s <= count ->
          exists s',
            handleVimAction W s (vim_delete_line count) = Returned s'
            /\ lines s' = firstn (Z.to_nat (cursorRow s)) (lines s)
            /\ cursorRow s' = cursorRow s - 1 /\ cursorCol s' = 0).
Proof.
  intros W s a Hne.
  assert (Hpos : 0 < len (lines s)).
  { pose proof (len_nonneg _ (lines s)).
    destruct (Z.eq_dec (len (lines s)) 0) as [E | E]; [| lia].
    apply len_nil_iff in E. contradiction. }
  split; [| split; [| split]].
  - intros s' Hrun. pose proof (handleVimAction_shape W s a s' Hrun) as Hs.
    destruct (isVertical a).
    + destruct Hs as (Hl & _). rewrite Hl. exact Hne.
    + exact (shape_lines_nonempty s s' Hs Hne).
  - apply handleVimAction_returns.
  - intros count Hall. cbn [handleVimAction]. unfold vimDeleteLine.
    destruct (Z.eqb_spec (len (lines s)) 0) as [E0 | E0]; [lia |].
    assert (Hc : (len (lines s) =? 1)
                 || (Z.min count (len (lines s) - cursorRow s)
                     >=? len (lines s)) = true).
    { apply orb_true_iff. destruct Hall as [H1 | [Hr Hc]].
      - left. apply Z.eqb_eq. exact H1.
      - right. apply Z.geb_le. lia. }
    rewrite Hc. eexists. split; [reflexivity |]. repeat split.
  - intros count Hrow Hcount. cbn [handleVimAction]. unfold vimDeleteLine.
    destruct (Z.eqb_spec (len (lines s)) 0) as [E0 | E0]; [lia |].
    assert (Hc : (len (lines s) =? 1)
                 || (Z.min count (len (lines s) - cursorRow s)
                     >=? len (lines s)) = false).
    { apply orb_false_iff. split.
      - apply Z.eqb_neq. lia.
      - destruct (Z.geb_spec (Z.min count (len (lines s) - cursorRow s))
                    (len (lines s))); [lia | reflexivity]. }
    rewrite Hc.
    assert (Hsplice :
              splice (lines (pushUndo s)) (cursorRow s)
                (Z.min count (len (lines s) - cursorRow s)) []
              = firstn (Z.to_nat (cursorRow s)) (lines s)).
    { unfold splice. cbn [pushUndo set_undoStack lines app].
      unfold relIndex. destruct (Z.ltb_spec (cursorRow s) 0); [lia |].
      replace (Z.min (cursorRow s) (len (lines s))) with (cursorRow s) by lia.
      replace (cursorRow s
               + Z.min (Z.max (Z.min count (len (lines s) - cursorRow s)) 0)
                   (len (lines s) - cursorRow s))
        with (len (lines s)) by lia.
      rewrite skipn_len. apply app_nil_r. }
    eexists. split; [reflexivity |].
    cbn [moveCursor set_preferredCol set_cursorCol set_cursorRow set_lines
           lines cursorRow cursorCol].
    rewrite Hsplice. repeat split.
    unfold len. rewrite length_firstn. unfold len in Hrow. lia.
Qed.

Lemma lines_never_empty_example :
  exists s',
    handleVimAction Words.scanner (mkState [lit "abc"; lit "def"] 0 0)
      (vim_delete_line 2) = Returned s'
    /\ lines s' = [[]] /\ cursorRow s' = 0 /\ cursorCol s' = 0.
Proof.
  refine (proj1 (proj2 (proj2
            (lines_never_empty Words.scanner
               (mkState [lit "abc"; lit "def"] 0 0) (vim_delete_line 2) _)))
            2 _).
  - discriminate.
  - right. vm_compute. split; discriminate.
Defined.

(** C1 as stated fails: from the second of three lines, a count that covers
    every remaining line leaves the first line, not one empty line. *)
Lemma delete_remaining_lines_keeps_the_lines_above :
  exists s',
    handleVimAction Words.scanner (mkState [lit "a"; lit "b"; lit "c"] 1 0)
      (vim_delete_line 2) = Returned s'
    /\ len (lines (mkState [lit "a"; lit "b"; lit "c"] 1 0))
       - cursorRow (mkState [lit "a"; lit "b"; lit "c"] 1 0) <= 2
    /\ lines s' = [lit "a"]
    /\ lines s' <> [[]].
Proof.
  eexists. split; [reflexivity |].
  split; [vm_compute; discriminate |].
  split; [reflexivity | vm_compute; discriminate].
Qed.

(** ** Undo after a command *)

Lemma undo_after_snapshot :
  forall s s',
    undoStack s' = snapshot s :: undoStack s ->
    lines (undo s') = lines s
    /\ cursorRow (undo s') = cursorRow s
    /\ cursorCol (undo s') = cursorCol s.
Proof.
  intros s s' H. unfold undo. rewrite H. repeat split.
Qed.

(** C3: when a command has changed the lines of the buffer, or has taken a
    snapshot, [undo] on the state it returns restores the lines and the cursor
    of the state before the command; and every command that can change the
    buffer returns a state. *)
Theorem undo_restores_state_before_command :
  forall (W : WordScanner) s a,
    (forall s',
        handleVimAction W s a = Returned s' ->
        lines s' <> lines s \/ undoStack s' <> undoStack s ->
        lines (undo s') = lines s
        /\ cursorRow (undo s') = cursorRow s
        /\ cursorCol (undo s') = cursorCol s)
    /\ (isSearch a = false -> exists s', handleVimAction W s a = Returned s').
Proof.
  intros W s a. split; [| apply handleVimAction_returns_unless_search].
  intros s' Hrun Hchanged.
  pose proof (handleVimAction_shape W s a s' Hrun) as Hs.
  destruct (isVertical a).
  - destruct Hs as (Hl & Hu & _). destruct Hchanged; contradiction.
  - destruct Hs as [(Hl & _ & _ & _ & Hu) | [(Hl & Hu & _) | (Hu & _)]];
      try (destruct Hchanged; contradiction).
    apply undo_after_snapshot. exact Hu.
Qed.

Lemma undo_restores_example :
  lines (undo (vimDeleteLine (mkState [lit "abc"; lit "def"] 1 2) 1))
  = [lit "abc"; lit "def"]
  /\ cursorRow (undo (vimDeleteLine (mkState [lit "abc"; lit "def"] 1 2) 1)) = 1
  /\ cursorCol (undo (vimDeleteLine (mkState [lit "abc"; lit "def"] 1 2) 1)) = 2.
Proof.
  refine (proj1 (undo_restores_state_before_command Words.scanner
                   (mkState [lit "abc"; lit "def"] 1 2) (vim_delete_line 1))
            _ _ _).
  - reflexivity.
  - left. vm_compute. discriminate.
Defined.

(** ** The sticky column *)

Lemma moveVertically_col :
  forall s r,
    cursorRow (moveVertically s r) = r
    /\ cursorCol (moveVertically s r)
       = Z.min (stickyCol s) (lastCol (lineAt (lines s) r))
    /\ stickyCol (moveVertically s r) = stickyCol s.
Proof. intros. repeat split. Qed.



(** ** The direction of a search *)

(** C4, as the reducer has it: with direction [backward] no scan is done and
    the cursor does not move; [vim_search] only records the query and
    [vim_search_next] returns the state as it is. The forward scan runs for
    direction [forward] only. *)
Theorem backward_search_does_not_scan :
  forall (W : WordScanner) s query,
    handleVimAction W s (vim_search query backward)
    = Returned (set_lastSearchQuery s (Some query))
    /\ handleVimAction W s (vim_search_next backward) = Returned s.
Proof.
  intros W s query. split.
  - reflexivity.
  - cbn [handleVimAction]. unfold vimSearchNext.
    destruct (negb (truthy (lastSearchQuery s))); reflexivity.
Qed.

(** C4 as stated fails: on the line "ab" with the cursor on "a", the forward
    search for "b" moves the cursor and the backward search does not; the
    same holds for [vim_search_next]. *)
Lemma backward_search_differs_from_forward :
  handleVimAction Words.scanner (mkState [lit "ab"] 0 0)
    (vim_search (lit "b") backward)
  <> handleVimAction Words.scanner (mkState [lit "ab"] 0 0)
       (vim_search (lit "b") forward)
  /\ handleVimAction Words.scanner
       (set_lastSearchQuery (mkState [lit "ab"] 0 0) (Some (lit "b")))
       (vim_search_next backward)
     <> handleVimAction Words.scanner
          (set_lastSearchQuery (mkState [lit "ab"] 0 0) (Some (lit "b")))
          (vim_search_next forward).
Proof.
  split; vm_compute; discriminate.
Qed.

(** ** Columns after a search *)

(** C2 fails on the code: the search takes the column of a match from
    [indexOf], an offset in UTF-16 code units. On a line of two emoji and
    "b" the search for "b" leaves the cursor in column 4 of a line of three
    code points. *)
Theorem search_column_counts_code_units :
  cursorValid (mkState [twoEmojiAndB] 0 0)
  /\ exists s',
       handleVimAction Words.scanner (mkState [twoEmojiAndB] 0 0)
         (vim_search (lit "b") forward) = Returned s'
       /\ cursorCol s' = 4
       /\ cpLen (lineAt (lines s') (cursorRow s')) = 3
       /\ ~ cursorValid s'.
Proof.
  split.
  - unfold cursorValid. vm_compute. repeat split; discriminate.
  - eexists. split; [reflexivity |]. split; [reflexivity |].
    split; [reflexivity |].
    unfold cursorValid. vm_compute. intros (_ & _ & H). apply H. reflexivity.
Qed.

(** ** Occurrences of a query *)

Lemma startsWith_iff :
  forall q s, startsWith q s = true <-> exists post, s = q ++ post.
Proof.
  induction q as [| a q IH]; intros s; cbn [startsWith].
  - split; [intros _; exists s; reflexivity | reflexivity].
  - destruct s as [| b s].
    + split; [discriminate | intros [post H]; discriminate H].
    + rewrite andb_true_iff, N.eqb_eq, IH. split.
      * intros [-> [post ->]]. exists post. reflexivity.
      * intros [post H]. injection H as -> ->. split; eauto.
Qed.

Lemma occursAt_iff :
  forall q line c,
    occursAt q line c <->
    0 <= c <= len line /\ startsWith q (skipn (Z.to_nat c) line) = true.
Proof.
  intros q line c. unfold occursAt, len. split.
  - intros (pre & post & -> & <-). rewrite Nat2Z.id. split.
    + rewrite length_app. lia.
    + rewrite skipn_app, skipn_all, Nat.sub_diag. cbn [skipn app].
      apply startsWith_iff. eauto.
  - intros [Hc Hs]. apply startsWith_iff in Hs as [post Hpost].
    exists (firstn (Z.to_nat c) line), post. split.
    + rewrite <- Hpost. symmetry. apply firstn_skipn.
    + rewrite length_firstn. lia.
Qed.

Lemma indexOfAux_none :
  forall q s k,
    0 <= k -> indexOfAux q s k = -1 ->
    forall j, (j <= length s)%nat -> startsWith q (skipn j s) = false.
Proof.
  intros q s. induction s as [| b s IH]; intros k Hk H j Hj;
    cbn [indexOfAux] in H.
  - destruct (startsWith q []) eqn:E; [lia |].
    replace j with 0%nat by (cbn in Hj; lia). exact E.
  - destruct (startsWith q (b :: s)) eqn:E; [lia |].
    destruct j as [| j]; [exact E |]. cbn [skipn].
    apply (IH (k + 1)); [lia | exact H | cbn in Hj; lia].
Qed.

Lemma indexOfAux_found :
  forall q s k r,
    0 <= k -> indexOfAux q s k = r -> r <> -1 ->
    exists j,
      r = k + Z.of_nat j /\ (j <= length s)%nat
      /\ startsWith q (skipn j s) = true
      /\ forall j', (j' < j)%nat -> startsWith q (skipn j' s) = false.
Proof.
  intros q s. induction s as [| b s IH]; intros k r Hk H Hr;
    cbn [indexOfAux] in H.
  - destruct (startsWith q []) eqn:E; [| congruence].
    exists 0%nat. repeat split; try lia. exact E.
  - destruct (startsWith q (b :: s)) eqn:E.
    + exists 0%nat. cbn [skipn length]. repeat split; try lia. exact E.
    + destruct (IH (k + 1) r) as (j & -> & Hj & Hs & Hmin); try lia; auto.
      exists (S j). cbn [skipn length]. repeat split; try lia; auto.
      intros [| j'] Hlt; [exact E |]. cbn [skipn]. apply Hmin. lia.
Qed.

Lemma searchStart_bounds : forall s from, 0 <= searchStart s from <= len s.
Proof.
  intros. unfold searchStart, clamp. pose proof (len_nonneg _ s). lia.
Qed.

Lemma skipn_add :
  forall (A : Type) (l : list A) (a b : nat),
    skipn (a + b) l = skipn b (skipn a l).
Proof.
  intros A l a b. rewrite skipn_skipn. f_equal. lia.
Qed.

(** [indexOf] returns -1 when the query does not occur from the start
    position on. *)
Lemma indexOf_none :
  forall s q from,
    indexOf s q from = -1 ->
    forall c, searchStart s from <= c -> ~ occursAt q s c.
Proof.
  intros s q from H c Hc Hocc. unfold indexOf in H.
  fold (searchStart s from) in H.
  pose proof (searchStart_bounds s from) as Hb.
  set (pos := searchStart s from) in *.
  apply occursAt_iff in Hocc as [Hrange Hs].
  pose proof (indexOfAux_none q (skipn (Z.to_nat pos) s) pos (proj1 Hb) H
                (Z.to_nat c - Z.to_nat pos)) as Hn.
  rewrite <- skipn_add in Hn.
  replace (Z.to_nat pos + (Z.to_nat c - Z.to_nat pos))%nat with (Z.to_nat c)
    in Hn by lia.
  rewrite Hn in Hs; [discriminate |].
  rewrite length_skipn. unfold len in *. lia.
Qed.

(** Otherwise it returns the first offset, from the start position on, at
    which the query occurs. *)
Lemma indexOf_found :
  forall s q from r,
    indexOf s q from = r -> r <> -1 ->
    occursAt q s r /\ searchStart s from <= r
    /\ forall c, searchStart s from <= c -> occursAt q s c -> r <= c.
Proof.
  intros s q from r H Hr. unfold indexOf in H.
  fold (searchStart s from) in H.
  pose proof (searchStart_bounds s from) as Hb.
  set (pos := searchStart s from) in *.
  destruct (indexOfAux_found q (skipn (Z.to_nat pos) s) pos r (proj1 Hb) H Hr)
    as (j & -> & Hj & Hs & Hmin).
  rewrite length_skipn in Hj. unfold len in Hb.
  split; [| split].
  - apply occursAt_iff. split; [unfold len; lia |].
    replace (Z.to_nat (pos + Z.of_nat j)) with (Z.to_nat pos + j)%nat by lia.
    rewrite skipn_add. exact Hs.
  - lia.
  - intros c Hc Hocc. apply occursAt_iff in Hocc as [Hrange Hsc].
    destruct (Z.le_gt_cases (pos + Z.of_nat j) c) as [Hle | Hgt];
      [exact Hle |].
    specialize (Hmin (Z.to_nat c - Z.to_nat pos)%nat ltac:(lia)).
    rewrite <- skipn_add in Hmin.
    replace (Z.to_nat pos + (Z.to_nat c - Z.to_nat pos))%nat with (Z.to_nat c)
      in Hmin by lia.
    congruence.
Qed.

Lemma at_range :
  forall (A : Type) (xs : list A) (i : Z) (x : A),
    at_ xs i = Some x -> 0 <= i < len xs.
Proof.
  intros A xs i x H. unfold at_ in H.
  destruct (Z.ltb_spec i 0); [discriminate |].
  assert (Hn : nth_error xs (Z.to_nat i) <> None) by congruence.
  apply nth_error_Some in Hn. unfold len. lia.
Qed.

Lemma matchAt_row :
  forall ls q r c, matchAt ls q r c -> 0 <= r < len ls.
Proof. intros ls q r c (line & Hl & _). exact (at_range _ _ _ _ Hl). Qed.

Lemma occursAt_nonneg : forall q line c, occursAt q line c -> 0 <= c.
Proof. intros q line c H. apply occursAt_iff in H. lia. Qed.

Lemma searchStart_zero : forall s, searchStart s 0 = 0.
Proof.
  intro s. unfold searchStart, clamp. pose proof (len_nonneg _ s). lia.
Qed.

(** A line without a match: [line.indexOf(query)] is -1. *)
Lemma no_match_in_row :
  forall ls q i line,
    at_ ls i = Some line -> indexOf line q 0 = -1 ->
    forall c, ~ matchAt ls q i c.
Proof.
  intros ls q i line Hl Hidx c (line' & Hl' & Hocc).
  assert (line' = line) by congruence. subst line'.
  apply (indexOf_none line q 0 Hidx c); [| exact Hocc].
  rewrite searchStart_zero. exact (occursAt_nonneg _ _ _ Hocc).
Qed.

(** A line with a match: [line.indexOf(query)] is its first one. *)
Lemma first_match_in_row :
  forall ls q i line,
    at_ ls i = Some line -> indexOf line q 0 <> -1 ->
    matchAt ls q i (indexOf line q 0)
    /\ forall c, matchAt ls q i c -> indexOf line q 0 <= c.
Proof.
  intros ls q i line Hl Hidx.
  destruct (indexOf_found line q 0 _ eq_refl Hidx) as (Hocc & _ & Hmin).
  split.
  - exists line. split; assumption.
  - intros c (line' & Hl' & Hocc').
    assert (line' = line) by congruence. subst line'.
    apply Hmin; [| exact Hocc'].
    rewrite searchStart_zero. exact (occursAt_nonneg _ _ _ Hocc').
Qed.

Lemma searchBelow_spec :
  forall n ls q i fr fc,
    0 <= i -> n = Z.to_nat (len ls - i) ->
    searchBelow n ls q i = Some (fr, fc) ->
    (fr = -1 /\ forall r c, i <= r -> ~ matchAt ls q r c)
    \/ (i <= fr /\ matchAt ls q fr fc
        /\ (forall r c, i <= r < fr -> ~ matchAt ls q r c)
        /\ forall c, matchAt ls q fr c -> fc <= c).
Proof.
  induction n as [| n IH]; intros ls q i fr fc Hi Hn H; cbn [searchBelow] in H.
  - injection H as <- <-. left. split; [reflexivity |].
    intros r c Hr Hm. apply matchAt_row in Hm. lia.
  - destruct (Z.ltb_spec i (len ls)) as [Hlt | Hge]; [| lia].
    destruct (at_some _ ls i) as [line Hl]; [lia |]. rewrite Hl in H.
    destruct (Z.eqb_spec (indexOf line q 0) (-1)) as [E | E]; cbn [negb] in H.
    + pose proof (no_match_in_row ls q i line Hl E) as Hrow.
      destruct (IH ls q (i + 1) fr fc) as [[Hfr Hno] | (Hle & Hm & Hno & Hmin)];
        try lia; auto.
      * left. split; [exact Hfr |]. intros r c Hr.
        destruct (Z.eq_dec r i) as [-> | Hne]; [apply Hrow |].
        apply Hno. lia.
      * right. split; [lia |]. split; [exact Hm |]. split; [| exact Hmin].
        intros r c Hr.
        destruct (Z.eq_dec r i) as [-> | Hne]; [apply Hrow |].
        apply Hno. lia.
    + injection H as <- <-.
      destruct (first_match_in_row ls q i line Hl E) as [Hm Hmin].
      right. split; [lia |]. split; [exact Hm |]. split; [| exact Hmin].
      intros r c Hr. lia.
Qed.

Lemma searchWrap_spec :
  forall n ls q R C i fr fc,
    0 <= i -> R < len ls -> n = Z.to_nat (R + 1 - i) ->
    searchWrap n ls q R C i = Some (fr, fc) ->
    (fr = -1
     /\ (forall r c, i <= r < R -> ~ matchAt ls q r c)
     /\ (i <= R -> forall c, matchAt ls q R c -> C <= c))
    \/ (i <= fr <= R /\ matchAt ls q fr fc /\ (fr < R \/ fc < C)
        /\ (forall r c, i <= r < fr -> ~ matchAt ls q r c)
        /\ forall c, matchAt ls q fr c -> fc <= c).
Proof.
  induction n as [| n IH]; intros ls q R C i fr fc Hi HR Hn H;
    cbn [searchWrap] in H.
  - injection H as <- <-. left. split; [reflexivity |]. split; intros; lia.
  - destruct (Z.leb_spec i R) as [Hle | Hgt]; [| lia].
    destruct (at_some _ ls i) as [line Hl]; [lia |]. rewrite Hl in H.
    destruct (Z.eqb_spec (indexOf line q 0) (-1)) as [E | E]; cbn [negb andb] in H.
    + pose proof (no_match_in_row ls q i line Hl E) as Hrow.
      destruct (IH ls q R C (i + 1) fr fc)
        as [(Hfr & Hno & Hlast) | (Hrange & Hm & Hcand & Hno & Hmin)];
        try lia; auto.
      * left. split; [exact Hfr |]. split.
        -- intros r c Hr.
           destruct (Z.eq_dec r i) as [-> | Hne]; [apply Hrow |].
           apply Hno. lia.
        -- intros _ c Hm.
           destruct (Z.eq_dec i R) as [-> | Hne];
             [exfalso; exact (Hrow c Hm) |].
           apply Hlast; [lia | exact Hm].
      * right. split; [lia |]. split; [exact Hm |]. split; [exact Hcand |].
        split; [| exact Hmin].
        intros r c Hr.
        destruct (Z.eq_dec r i) as [-> | Hne]; [apply Hrow |].
        apply Hno. lia.
    + destruct (first_match_in_row ls q i line Hl E) as [Hm Hmin].
      destruct ((i <? R) || (indexOf line q 0 <? C)) eqn:Hcand.
      * injection H as <- <-. right.
        split; [lia |]. split; [exact Hm |]. split.
        -- apply orb_true_iff in Hcand as [Hc | Hc];
             [left; apply Z.ltb_lt; exact Hc
             | right; apply Z.ltb_lt; exact Hc].
        -- split; [intros r c Hr; lia | exact Hmin].
      * apply orb_false_iff in Hcand as [Hc1 Hc2].
        apply Z.ltb_ge in Hc1, Hc2.
        assert (i = R) by lia. subst i.
        destruct (IH ls q R C (R + 1) fr fc)
          as [(Hfr & Hno & Hlast) | (Hrange & _)]; try lia; auto.
        left. split; [exact Hfr |]. split; [intros r c Hr; lia |].
        intros _ c Hmc. specialize (Hmin c Hmc). lia.
Qed.

(** ** The forward search *)


Lemma occursAt_le_len : forall q line c, occursAt q line c -> c <= len line.
Proof. intros q line c H. apply occursAt_iff in H. lia. Qed.


(** ** Lines, code points and line breaks *)

Lemma splitLF_app_LF :
  forall a b, splitLF (a ++ LF :: b) = splitLF a ++ splitLF b.
Proof.
  induction a as [| c a IH]; intros b; cbn [app splitLF].
  - reflexivity.
  - destruct (N.eqb c LF).
    + rewrite IH. reflexivity.
    + rewrite IH. destruct (splitLF a) as [| h t] eqn:E.
      * exfalso. exact (splitLF_nonempty a E).
      * reflexivity.
Qed.

Lemma splitLF_noLF : forall l, ~ In LF l -> splitLF l = [l].
Proof.
  induction l as [| c l IH]; intros Hno; cbn [splitLF]; [reflexivity |].
  destruct (N.eqb_spec c LF) as [-> | Hc].
  - exfalso. apply Hno. left. reflexivity.
  - rewrite IH; [reflexivity |]. intro Hin. apply Hno. right. exact Hin.
Qed.

Lemma arrayFrom_pair :
  forall u v r,
    arrayFrom (u :: v :: r)
    = if isHighSurrogate u && isLowSurrogate v
      then [u; v] :: arrayFrom r
      else [u] :: arrayFrom (v :: r).
Proof. reflexivity. Qed.

Lemma concat_arrayFrom_bounded :
  forall n s, (length s <= n)%nat -> concat (arrayFrom s) = s.
Proof.
  induction n as [| n IH]; intros s Hn.
  - destruct s; [reflexivity | cbn in Hn; lia].
  - destruct s as [| u [| v r]]; [reflexivity | reflexivity |].
    rewrite arrayFrom_pair. cbn [length] in Hn.
    destruct (isHighSurrogate u && isLowSurrogate v); cbn [concat app].
    + rewrite (IH r); [reflexivity | lia].
    + rewrite (IH (v :: r)); [reflexivity | cbn [length]; lia].
Qed.

(** The code points of a string, put together, are the string. *)
Lemma concat_toCodePoints : forall s, concat (toCodePoints s) = s.
Proof. intro s. apply (concat_arrayFrom_bounded (length s)). lia. Qed.

Lemma cpSlice_whole : forall line, cpSlice line 0 (cpLen line) = line.
Proof.
  intro line. unfold cpSlice, cpLen, clamp.
  pose proof (len_nonneg _ (toCodePoints line)).
  replace (Z.min (Z.max 0 0) (len (toCodePoints line))) with 0 by lia.
  replace (Z.min (Z.max (len (toCodePoints line)) 0) (len (toCodePoints line))
           - 0) with (len (toCodePoints line)) by lia.
  cbn [Z.to_nat skipn]. unfold len. rewrite Nat2Z.id, firstn_all.
  apply concat_toCodePoints.
Qed.

Lemma cpSlice_empty : forall line, cpSlice line 0 0 = [].
Proof.
  intro line. unfold cpSlice, clamp.
  pose proof (len_nonneg _ (toCodePoints line)).
  replace (Z.min (Z.max 0 0) (len (toCodePoints line))) with 0 by lia.
  reflexivity.
Qed.

Lemma cpSliceFrom_end : forall line, cpSliceFrom line (cpLen line) = [].
Proof.
  intro line. unfold cpSliceFrom, cpLen, clamp.
  pose proof (len_nonneg _ (toCodePoints line)).
  replace (Z.min (Z.max (len (toCodePoints line)) 0) (len (toCodePoints line)))
    with (len (toCodePoints line)) by lia.
  rewrite skipn_len. reflexivity.
Qed.

Lemma cpSliceFrom_start : forall line, cpSliceFrom line 0 = line.
Proof.
  intro line. unfold cpSliceFrom, clamp.
  pose proof (len_nonneg _ (toCodePoints line)).
  replace (Z.min (Z.max 0 0) (len (toCodePoints line))) with 0 by lia.
  cbn [Z.to_nat skipn]. apply concat_toCodePoints.
Qed.

Lemma at_nth_error :
  forall (A : Type) (xs : list A) (i : Z) (x : A),
    at_ xs i = Some x -> nth_error xs (Z.to_nat i) = Some x /\ 0 <= i.
Proof.
  intros A xs i x H. unfold at_ in H.
  destruct (Z.ltb_spec i 0); [discriminate |]. split; [exact H | lia].
Qed.

Lemma nth_error_split_at :
  forall (A : Type) (xs : list A) (n : nat) (x : A),
    nth_error xs n = Some x ->
    firstn (S n) xs = firstn n xs ++ [x]
    /\ skipn n xs = x :: skipn (S n) xs.
Proof.
  intros A xs. induction xs as [| y xs IH]; intros n x H.
  - destruct n; discriminate H.
  - destruct n as [| n]; cbn in H.
    + injection H as ->. split; reflexivity.
    + destruct (IH n x H) as [Hf Hs]. split.
      * cbn [firstn app]. cbn [firstn] in Hf. rewrite Hf. reflexivity.
      * exact Hs.
Qed.

(** Row [r] between the rows before it and the rows after it. *)
Lemma rows_around :
  forall (ls : list jsstring) (r : Z) (line : jsstring),
    at_ ls r = Some line ->
    firstn (Z.to_nat (r + 1)) ls = firstn (Z.to_nat r) ls ++ [line]
    /\ skipn (Z.to_nat r) ls = line :: skipn (Z.to_nat (r + 1)) ls.
Proof.
  intros ls r line H. apply at_nth_error in H as [H Hr].
  replace (Z.to_nat (r + 1)) with (S (Z.to_nat r)) by lia.
  apply nth_error_split_at. exact H.
Qed.

Lemma replaceRange_lines :
  forall s a b c d t,
    lines (replaceRangeInternal s a b c d t)
    = firstn (Z.to_nat a) (lines s)
      ++ splitLF (cpSlice (lineAt (lines s) a) 0 b ++ t
                  ++ cpSliceFrom (lineAt (lines s) c) d)
      ++ skipn (Z.to_nat (c + 1)) (lines s).
Proof. reflexivity. Qed.

(** ** The clipboard of a paste *)

Lemma endsWith_LF_iff :
  forall clip,
    endsWith clip [LF] = true <-> exists payload, clip = payload ++ [LF].
Proof.
  intro clip. unfold endsWith. cbn [length]. split.
  - intro H. apply andb_true_iff in H as [Hlen Hs].
    apply Nat.leb_le in Hlen.
    apply startsWith_iff in Hs as [post Hpost].
    assert (Hl : length (skipn (length clip - 1) clip) = 1%nat)
      by (rewrite length_skipn; lia).
    rewrite Hpost in Hl. cbn [app length] in Hl.
    destruct post; [| cbn in Hl; lia].
    exists (firstn (length clip - 1) clip).
    cbn [app] in Hpost. rewrite <- Hpost. symmetry. apply firstn_skipn.
  - intros [payload ->]. rewrite length_app. cbn [length].
    apply andb_true_iff. split; [apply Nat.leb_le; lia |].
    replace (length payload + 1 - 1)%nat with (length payload + 0)%nat by lia.
    rewrite skipn_app, skipn_all2 by lia.
    replace (length payload + 0 - length payload)%nat with 0%nat by lia.
    reflexivity.
Qed.

Lemma includes_LF_at_end : forall payload, includes (payload ++ [LF]) [LF] = true.
Proof.
  intro payload. unfold includes.
  destruct (Z.eqb_spec (indexOf (payload ++ [LF]) [LF] 0) (-1)) as [E | E];
    [| reflexivity].
  exfalso.
  apply (indexOf_none _ _ _ E (len payload)).
  - rewrite searchStart_zero. apply len_nonneg.
  - exists payload, []. split; reflexivity.
Qed.

Lemma slice_drop_last :
  forall (payload : jsstring), slice (payload ++ [LF]) 0 (-1) = payload.
Proof.
  intro payload. unfold slice, relIndex, len. rewrite length_app.
  cbn [length]. change (0 <? 0) with false. change (-1 <? 0) with true.
  cbv iota.
  replace (Z.min 0 (Z.of_nat (length payload + 1))) with 0 by lia.
  replace (Z.to_nat (Z.max (Z.of_nat (length payload + 1) + -1) 0 - 0))
    with (length payload + 0)%nat by lia.
  cbn [Z.to_nat skipn]. rewrite firstn_app_2. cbn [firstn].
  apply app_nil_r.
Qed.

Lemma truthy_nonempty :
  forall clip : jsstring, clip <> [] -> truthy (Some clip) = true.
Proof. intros [| u clip] H; [contradiction | reflexivity]. Qed.

(** C7: with a clipboard that is not empty and the cursor on a row of the
    buffer, a linewise payload (one that ends with a line break) is pasted as
    lines of its own, below the cursor row by paste-after and above it by
    paste-before; any other payload is inserted in the cursor row, from column
    [min(cursorCol + 1, lineLength)] by paste-after and from [cursorCol] by
    paste-before. *)
Theorem paste_linewise_and_characterwise :
  forall (W : WordScanner) s clip,
    clipboard s = Some clip ->
    clip <> [] ->
    0 <= cursorRow s < len (lines s) ->
    let row := cursorRow s in
    let line := lineAt (lines s) row in
    (forall payload,
        clip = payload ++ [LF] ->
        ~ In LF line ->
        (exists s',
            handleVimAction W s (vim_paste after) = Returned s'
            /\ lines s'
               = firstn (Z.to_nat (row + 1)) (lines s)
                 ++ splitLF payload
                 ++ skipn (Z.to_nat (row + 1)) (lines s))
        /\ (exists s',
               handleVimAction W s (vim_paste before) = Returned s'
               /\ lines s'
                  = firstn (Z.to_nat row) (lines s)
                    ++ splitLF payload
                    ++ skipn (Z.to_nat row) (lines s)))
    /\ ((forall payload, clip <> payload ++ [LF]) ->
        (exists s',
            handleVimAction W s (vim_paste after) = Returned s'
            /\ lines s'
               = firstn (Z.to_nat row) (lines s)
                 ++ splitLF
                      (cpSlice line 0 (Z.min (cursorCol s + 1) (cpLen line))
                       ++ clip
                       ++ cpSliceFrom line
                            (Z.min (cursorCol s + 1) (cpLen line)))
                 ++ skipn (Z.to_nat (row + 1)) (lines s))
        /\ (exists s',
               handleVimAction W s (vim_paste before) = Returned s'
               /\ lines s'
                  = firstn (Z.to_nat row) (lines s)
                    ++ splitLF
                         (cpSlice line 0 (cursorCol s) ++ clip
                          ++ cpSliceFrom line (cursorCol s))
                    ++ skipn (Z.to_nat (row + 1)) (lines s))).
Proof.
  intros W s clip Hclip Hne Hrow row line.
  destruct (at_some _ (lines s) row Hrow) as [line' Hl].
  assert (Hline : line = line')
    by (unfold line, lineAt; rewrite Hl; reflexivity).
  destruct (rows_around (lines s) row line' Hl) as [Hfirst Hskip].
  cbn [handleVimAction]. unfold vimPaste. rewrite Hclip.
  rewrite (truthy_nonempty clip Hne). cbn [negb orEmpty].
  fold row. fold line.
  split.
  - intros payload -> HnoLF.
    rewrite includes_LF_at_end.
    assert (Hends : endsWith (payload ++ [LF]) [LF] = true)
      by (apply endsWith_LF_iff; eauto).
    rewrite Hends. cbn [andb]. split.
    + eexists. split; [reflexivity |].
      rewrite replaceRange_lines. cbn [pushUndo set_undoStack lines].
      fold line. rewrite cpSlice_whole, cpSliceFrom_end, slice_drop_last.
      rewrite app_nil_r. cbn [app].
      rewrite splitLF_app_LF, (splitLF_noLF line HnoLF).
      rewrite Hfirst, <- Hline. repeat rewrite <- app_assoc. reflexivity.
    + eexists. split; [reflexivity |].
      rewrite replaceRange_lines. cbn [pushUndo set_undoStack lines].
      fold line. rewrite cpSlice_empty, cpSliceFrom_start.
      cbn [app]. rewrite <- app_assoc. cbn [app].
      rewrite splitLF_app_LF, (splitLF_noLF line HnoLF).
      rewrite Hskip, <- Hline. repeat rewrite <- app_assoc. reflexivity.
  - intros Hchar.
    assert (Hends : endsWith clip [LF] = false).
    { destruct (endsWith clip [LF]) eqn:E; [| reflexivity].
      apply endsWith_LF_iff in E as [payload E].
      exfalso. exact (Hchar payload E). }
    rewrite Hends, andb_false_r. split.
    + destruct (includes clip [LF]); eexists; (split; [reflexivity |]);
        rewrite replaceRange_lines; reflexivity.
    + eexists. split; [reflexivity |].
      rewrite replaceRange_lines. reflexivity.
Qed.

Lemma paste_linewise_example :
  exists s',
    handleVimAction Words.scanner
      (set_clipboard (mkState [lit "abc"] 0 0) (Some (lit "xyz" ++ [LF])))
      (vim_paste after) = Returned s'
    /\ lines s' = [lit "abc"; lit "xyz"].
Proof.
  destruct (proj1 (proj1
              (paste_linewise_and_characterwise Words.scanner
                 (set_clipboard (mkState [lit "abc"] 0 0)
                    (Some (lit "xyz" ++ [LF])))
                 (lit "xyz" ++ [LF]) eq_refl
                 ltac:(discriminate)
                 ltac:(vm_compute; split; [discriminate | reflexivity]))
              (lit "xyz") eq_refl
              ltac:(vm_compute; intuition discriminate)))
    as (s' & Hrun & Hlines).
  exists s'. split; [exact Hrun |]. rewrite Hlines. reflexivity.
Defined.

(** ** The selection *)

(** The range of a selection is the anchor and the cursor, in order. *)
Lemma selectionRange_ordered :
  forall ar ac r c sr sc er ec,
    selectionRange (ar, ac) r c = (sr, sc, er, ec) ->
    posLe sr sc er ec
    /\ ((sr = ar /\ sc = ac /\ er = r /\ ec = c)
        \/ (sr = r /\ sc = c /\ er = ar /\ ec = ac)).
Proof.
  intros ar ac r c sr sc er ec. unfold selectionRange, posBefore, posLe.
  cbn [fst snd].
  destruct (Z.ltb_spec ar r) as [Hlt | Hge]; cbn [orb].
  - intro H. injection H as <- <- <- <-. split; [lia | left; auto].
  - destruct (Z.eqb_spec ar r) as [Heq | Hneq]; cbn [andb].
    + destruct (Z.ltb_spec ac c) as [Hc | Hc]; intro H;
        injection H as <- <- <- <-; (split; [lia | auto]).
    + intro H. injection H as <- <- <- <-. split; [lia | right; auto].
Qed.

Lemma yankMiddle_rows :
  forall n ls i e,
    n = Z.to_nat (e - i) ->
    yankMiddle n ls i e
    = concat (map (fun r => lineAt ls r ++ [LF]) (rowsFrom i n)).
Proof.
  induction n as [| n IH]; intros ls i e Hn;
    cbn [yankMiddle rowsFrom map concat]; [reflexivity |].
  destruct (Z.ltb_spec i e) as [Hlt | Hge]; [| lia].
  rewrite (IH ls (i + 1) e) by lia.
  rewrite <- app_assoc. reflexivity.
Qed.

(** C6: with a selection anchor, the selection runs from the earlier to the
    later of anchor and cursor (row first, then col). [vim_yank_selection]
    puts into the clipboard the text from the start up to and with the
    character at the end, and [vim_delete_char] replaces the same range, its
    end column passed as [endCol + 1], by nothing. *)
Theorem selection_is_ordered_and_inclusive :
  forall (W : WordScanner) s ar ac,
    selectionAnchor s = Some (ar, ac) ->
    exists sr sc er ec,
      posLe sr sc er ec
      /\ ((sr = ar /\ sc = ac /\ er = cursorRow s /\ ec = cursorCol s)
          \/ (sr = cursorRow s /\ sc = cursorCol s /\ er = ar /\ ec = ac))
      /\ handleVimAction W s vim_yank_selection
         = Returned
             (set_clipboard s
                (Some (textBetween (lines s) sr sc er (ec + 1))))
      /\ forall count,
           handleVimAction W s (vim_delete_char count)
           = Returned
               (set_selectionAnchor
                  (replaceRangeInternal (pushUndo s) sr sc er (ec + 1) [])
                  None).
Proof.
  intros W s ar ac Hanchor.
  destruct (selectionRange (ar, ac) (cursorRow s) (cursorCol s))
    as [[[sr sc] er] ec] eqn:Hrange.
  destruct (selectionRange_ordered _ _ _ _ _ _ _ _ Hrange) as [Hord Hends].
  exists sr, sc, er, ec. split; [exact Hord |]. split; [exact Hends |].
  split.
  - cbn [handleVimAction]. unfold vimYankSelection.
    rewrite Hanchor, Hrange. unfold textBetween, rowsInside.
    destruct (Z.eqb_spec sr er) as [Heq | Hneq]; [reflexivity |].
    rewrite (yankMiddle_rows _ (lines s) (sr + 1) er eq_refl). reflexivity.
  - intro count. cbn [handleVimAction]. unfold vimDeleteChar.
    rewrite Hanchor, Hrange. reflexivity.
Qed.

Lemma yank_selection_example :
  exists s',
    handleVimAction Words.scanner
      (set_selectionAnchor (mkState [lit "foo"; lit "bar"] 1 1)
         (Some (0, 1)))
      vim_yank_selection = Returned s'
    /\ clipboard s' = Some (lit "oo" ++ [LF] ++ lit "ba").
Proof.
  destruct (selection_is_ordered_and_inclusive Words.scanner
              (set_selectionAnchor (mkState [lit "foo"; lit "bar"] 1 1)
                 (Some (0, 1)))
              0 1 eq_refl)
    as (sr & sc & er & ec & Hord & Hends & Hyank & _).
  eexists. split; [exact Hyank |].
  destruct Hends as [(-> & -> & -> & ->) | (-> & -> & -> & ->)].
  - reflexivity.
  - exfalso. unfold posLe in Hord. cbn in Hord. lia.
Defined.

(** ** Deleting the selection *)

Lemma In_firstn : forall (A : Type) (n : nat) (l : list A) (x : A),
    In x (firstn n l) -> In x l.
Proof.
  intros A n l x H. rewrite <- (firstn_skipn n l). apply in_or_app. left.
  exact H.
Qed.

Lemma In_skipn : forall (A : Type) (n : nat) (l : list A) (x : A),
    In x (skipn n l) -> In x l.
Proof.
  intros A n l x H. rewrite <- (firstn_skipn n l). apply in_or_app. right.
  exact H.
Qed.

(** A slice of a line holds code units of the line only. *)
Lemma In_cpSlice :
  forall line b e u, In u (cpSlice line b e) -> In u line.
Proof.
  intros line b e u H. unfold cpSlice in H.
  apply in_concat in H as (cp & Hcp & Hu).
  apply In_firstn, In_skipn in Hcp.
  rewrite <- (concat_toCodePoints line). apply in_concat. eauto.
Qed.

Lemma In_cpSliceFrom :
  forall line b u, In u (cpSliceFrom line b) -> In u line.
Proof.
  intros line b u H. unfold cpSliceFrom in H.
  apply in_concat in H as (cp & Hcp & Hu).
  apply In_skipn in Hcp.
  rewrite <- (concat_toCodePoints line). apply in_concat. eauto.
Qed.

Lemma lineAt_noLF :
  forall ls r, linesAreLines ls -> ~ In LF (lineAt ls r).
Proof.
  intros ls r Hls. unfold lineAt.
  destruct (at_ ls r) as [line |] eqn:E; cbn [orEmpty]; [| intros []].
  apply Hls. apply at_nth_error in E as [E _].
  exact (nth_error_In _ _ E).
Qed.

(** C9: with a selection anchor, [vim_delete_char] does the same whatever its
    count is: it takes a snapshot, removes the text from the earlier to the
    later of anchor and cursor (row first, then col), the character at the end
    included, and returns a state without selection anchor. What is left of
    the two rows of the range is joined; in a buffer whose lines hold no line
    break that is one line. *)
Theorem delete_char_removes_selection :
  forall (W : WordScanner) s ar ac count,
    selectionAnchor s = Some (ar, ac) ->
    exists sr sc er ec s',
      posLe sr sc er ec
      /\ ((sr = ar /\ sc = ac /\ er = cursorRow s /\ ec = cursorCol s)
          \/ (sr = cursorRow s /\ sc = cursorCol s /\ er = ar /\ ec = ac))
      /\ handleVimAction W s (vim_delete_char count) = Returned s'
      /\ (forall count',
             handleVimAction W s (vim_delete_char count') = Returned s')
      /\ selectionAnchor s' = None
      /\ undoStack s' = snapshot s :: undoStack s
      /\ lines s'
         = firstn (Z.to_nat sr) (lines s)
           ++ splitLF (cpSlice (lineAt (lines s) sr) 0 sc
                       ++ cpSliceFrom (lineAt (lines s) er) (ec + 1))
           ++ skipn (Z.to_nat (er + 1)) (lines s)
      /\ (linesAreLines (lines s) ->
          lines s'
          = firstn (Z.to_nat sr) (lines s)
            ++ [cpSlice (lineAt (lines s) sr) 0 sc
                ++ cpSliceFrom (lineAt (lines s) er) (ec + 1)]
            ++ skipn (Z.to_nat (er + 1)) (lines s)).
Proof.
  intros W s ar ac count Hanchor.
  destruct (selectionRange (ar, ac) (cursorRow s) (cursorCol s))
    as [[[sr sc] er] ec] eqn:Hrange.
  destruct (selectionRange_ordered _ _ _ _ _ _ _ _ Hrange) as [Hord Hends].
  exists sr, sc, er, ec.
  exists (set_selectionAnchor
            (replaceRangeInternal (pushUndo s) sr sc er (ec + 1) []) None).
  assert (Hrun : forall n,
             handleVimAction W s (vim_delete_char n)
             = Returned
                 (set_selectionAnchor
                    (replaceRangeInternal (pushUndo s) sr sc er (ec + 1) [])
                    None)).
  { intro n. cbn [handleVimAction]. unfold vimDeleteChar.
    rewrite Hanchor, Hrange. reflexivity. }
  split; [exact Hord |]. split; [exact Hends |].
  split; [apply Hrun |]. split; [exact Hrun |].
  split; [reflexivity |]. split; [reflexivity |].
  cbn [set_selectionAnchor lines]. rewrite replaceRange_lines.
  cbn [pushUndo set_undoStack lines app].
  split; [reflexivity |]. intro Hls.
  rewrite splitLF_noLF; [reflexivity |].
  intro Hin. apply in_app_or in Hin as [Hin | Hin].
  - apply In_cpSlice in Hin. exact (lineAt_noLF _ _ Hls Hin).
  - apply In_cpSliceFrom in Hin. exact (lineAt_noLF _ _ Hls Hin).
Qed.

Lemma delete_selection_example :
  exists s',
    handleVimAction Words.scanner
      (set_selectionAnchor (mkState [lit "foo"; lit "bar"] 1 1)
         (Some (0, 1)))
      (vim_delete_char 5) = Returned s'
    /\ selectionAnchor s' = None
    /\ lines s' = [lit "fr"].
Proof.
  destruct (delete_char_removes_selection Words.scanner
              (set_selectionAnchor (mkState [lit "foo"; lit "bar"] 1 1)
                 (Some (0, 1)))
              0 1 5 eq_refl)
    as (sr & sc & er & ec & s' & Hord & Hends & Hrun & _ & Hanchor & _
        & _ & Hlines).
  exists s'. split; [exact Hrun |]. split; [exact Hanchor |].
  rewrite Hlines.
  - destruct Hends as [(-> & -> & -> & ->) | (-> & -> & -> & ->)].
    + reflexivity.
    + exfalso. unfold posLe in Hord. cbn in Hord. lia.
  - intros line [<- | [<- | []]]; vm_compute; intuition discriminate.
Defined.

(** * Further properties of the reducer *)

(** ** Motions keep the cursor in the buffer *)

Lemma cpLen_nonneg : forall line, 0 <= cpLen line.
Proof. intro line. unfold cpLen. apply len_nonneg. Qed.

Lemma iter_invariant :
  forall (A : Type) (P : A -> Prop) (f : A -> A) (n : nat) (x : A),
    P x -> (forall y, P y -> P (f y)) -> P (Nat.iter n f x).
Proof.
  intros A P f n x Hx Hf. induction n as [| n IH]; cbn [Nat.iter nat_rect].
  - exact Hx.
  - apply Hf. exact IH.
Qed.

Lemma moveLeftStep_valid :
  forall ls r c,
    posValid ls r c ->
    posValid ls (fst (moveLeftStep ls (r, c))) (snd (moveLeftStep ls (r, c))).
Proof.
  intros ls r c [Hr Hc]. unfold moveLeftStep, posValid.
  destruct (Z.gtb_spec c 0) as [Hpos | Hzero]; cbn [fst snd].
  - pose proof (cpLen_nonneg (lineAt ls r)). lia.
  - destruct (Z.gtb_spec r 0) as [Hrow | Hrow]; cbn [fst snd].
    + pose proof (cpLen_nonneg (lineAt ls (r - 1))) as Hlen.
      destruct (Z.eqb_spec (cpLen (lineAt ls (r - 1))) 0); lia.
    + lia.
Qed.

Section PlainMotions.

Variable W : WordScanner.

Lemma skipMarksBefore_bounds :
  forall n cps L c,
    c <= L - 1 ->
    c <= skipMarksBefore W n cps L c <= L - 1.
Proof.
  induction n as [| n IH]; intros cps L c Hc; cbn [skipMarksBefore]; [lia |].
  destruct ((c <? len cps) && isCombiningMark W (at_ cps c)); cbn [andb];
    [| lia].
  destruct (Z.ltb_spec c (L - 1)); [| lia].
  specialize (IH cps L (c + 1) ltac:(lia)). lia.
Qed.

Lemma moveRightStep_valid :
  forall ls r c,
    posValid ls r c ->
    posValid ls (fst (moveRightStep W ls (r, c)))
      (snd (moveRightStep W ls (r, c))).
Proof.
  intros ls r c [Hr Hc]. unfold moveRightStep, posValid.
  destruct (Z.eqb_spec (cpLen (lineAt ls r)) 0) as [Hempty | Hfull].
  - destruct (Z.ltb_spec r (len ls - 1)); cbn [fst snd].
    + pose proof (cpLen_nonneg (lineAt ls (r + 1))). lia.
    + lia.
  - destruct (Z.ltb_spec c (cpLen (lineAt ls r) - 1)) as [Hin | Hlast];
      cbn [fst snd].
    + pose proof (skipMarksBefore_bounds
                    (Z.to_nat (cpLen (lineAt ls r) - 1 - (c + 1)))
                    (toCodePoints (lineAt ls r)) (cpLen (lineAt ls r))
                    (c + 1) ltac:(lia)).
      lia.
    + destruct (Z.ltb_spec r (len ls - 1)); cbn [fst snd].
      * pose proof (cpLen_nonneg (lineAt ls (r + 1))). lia.
      * lia.
Qed.

Lemma skipSpaces_bounds :
  forall cps c, c <= skipSpaces cps c <= c + len cps.
Proof.
  induction cps as [| cp cps IH]; intros c; cbn [skipSpaces].
  - unfold len. cbn. lia.
  - unfold len in *. cbn [length]. destruct (testSpace cp).
    + specialize (IH (c + 1)). lia.
    + lia.
Qed.

(** X1: a motion that looks neither at words nor at the sticky column
    (left, right, the jumps within the line and to a line, append and
    escape) returns a state, leaves the lines as they are and keeps a valid
    cursor valid, whatever its count or line number. *)
Theorem plain_motions_keep_cursor_valid :
  forall s a,
    isPlainMotion a = true ->
    cursorValid s ->
    exists s',
      handleVimAction W s a = Returned s'
      /\ lines s' = lines s
      /\ cursorValid s'.
Proof.
  intros s a Ha Hvalid.
  assert (Hpos : posValid (lines s) (cursorRow s) (cursorCol s)) by exact Hvalid.
  pose proof (cpLen_nonneg (lineAt (lines s) (cursorRow s))) as Hlen.
  destruct Hvalid as [Hr Hc].
  destruct a; try discriminate Ha; cbn [handleVimAction];
    eexists; (split; [reflexivity |]).
  - (* left *)
    unfold vimMoveLeft.
    pose proof (iter_invariant _
                  (fun p => posValid (lines s) (fst p) (snd p))
                  (moveLeftStep (lines s)) (Z.to_nat count)
                  (cursorRow s, cursorCol s) Hpos
                  (fun y => match y with
                            | (r, c) => moveLeftStep_valid (lines s) r c
                            end)) as Hit.
    unfold repeatSteps.
    destruct (Nat.iter _ _ _) as [r c]. split; [reflexivity | exact Hit].
  - (* right *)
    unfold vimMoveRight.
    pose proof (iter_invariant _
                  (fun p => posValid (lines s) (fst p) (snd p))
                  (moveRightStep W (lines s)) (Z.to_nat count)
                  (cursorRow s, cursorCol s) Hpos
                  (fun y => match y with
                            | (r, c) => moveRightStep_valid (lines s) r c
                            end)) as Hit.
    unfold repeatSteps.
    destruct (Nat.iter _ _ _) as [r c]. split; [reflexivity | exact Hit].
  - (* append at cursor *)
    split; [reflexivity |]. unfold vimAppendAtCursor, cursorValid. cbn.
    destruct (Z.ltb_spec (cursorCol s) (cpLen (lineAt (lines s) (cursorRow s))));
      lia.
  - (* append at line end *)
    split; [reflexivity |]. unfold cursorValid. cbn. lia.
  - (* insert at line start *)
    split; [reflexivity |]. unfold vimMoveToFirstNonWhitespace, cursorValid.
    cbn.
    pose proof (skipSpaces_bounds (toCodePoints (lineAt (lines s) (cursorRow s)))
                  0).
    unfold cpLen. lia.
  - (* line start *)
    split; [reflexivity |]. unfold cursorValid. cbn. lia.
  - (* line end *)
    split; [reflexivity |]. unfold vimMoveToLineEnd, cursorValid. cbn.
    destruct (Z.gtb_spec (cpLen (lineAt (lines s) (cursorRow s))) 0); lia.
  - (* first non-whitespace *)
    split; [reflexivity |]. unfold vimMoveToFirstNonWhitespace, cursorValid.
    cbn.
    pose proof (skipSpaces_bounds (toCodePoints (lineAt (lines s) (cursorRow s)))
                  0).
    unfold cpLen. lia.
  - (* first line *)
    split; [reflexivity |]. unfold cursorValid. cbn.
    pose proof (cpLen_nonneg (lineAt (lines s) 0)). lia.
  - (* last line *)
    split; [reflexivity |]. unfold cursorValid. cbn.
    pose proof (cpLen_nonneg (lineAt (lines s) (len (lines s) - 1))). lia.
  - (* line number *)
    split; [reflexivity |]. unfold vimMoveToLine, cursorValid. cbn.
    pose proof (cpLen_nonneg
                  (lineAt (lines s)
                     (Z.min (Z.max 0 (lineNumber - 1)) (len (lines s) - 1)))).
    lia.
  - (* escape *)
    split; [reflexivity |]. unfold vimEscapeInsertMode, cursorValid. cbn.
    destruct (Z.gtb_spec (cursorCol s) 0); lia.
Qed.

End PlainMotions.

Lemma plain_motions_example :
  exists s',
    handleVimAction Words.scanner (mkState [lit "ab"; lit ""; lit "cd"] 0 1)
      (vim_move_right 3) = Returned s'
    /\ lines s' = [lit "ab"; lit ""; lit "cd"]
    /\ cursorValid s'.
Proof.
  apply (plain_motions_keep_cursor_valid Words.scanner
           (mkState [lit "ab"; lit ""; lit "cd"] 0 1) (vim_move_right 3)).
  - reflexivity.
  - unfold cursorValid. vm_compute. repeat split; discriminate.
Defined.

(** ** Vertical motions *)

(** X2: with a count and a sticky column that are not negative, the vertical
    motions keep a valid cursor valid; [vim_move_up] stops on the first row
    and [vim_move_down] on the last one. *)
Theorem vertical_motions_keep_cursor_valid :
  forall (W : WordScanner) s count,
    cursorValid s ->
    0 <= stickyCol s ->
    0 <= count ->
    (exists s',
        handleVimAction W s (vim_move_up count) = Returned s'
        /\ cursorValid s'
        /\ cursorRow s' = Z.max 0 (cursorRow s - count)
        /\ (cursorRow s <= count -> cursorRow s' = 0))
    /\ (exists s',
           handleVimAction W s (vim_move_down count) = Returned s'
           /\ cursorValid s'
           /\ cursorRow s' = Z.min (len (lines s) - 1) (cursorRow s + count)
           /\ (len (lines s) - 1 - cursorRow s <= count ->
               cursorRow s' = len (lines s) - 1)).
Proof.
  intros W s count [Hr Hc] Hsticky Hcount.
  assert (Hcol : forall r,
             0 <= Z.min (stickyCol s)
                    (if cpLen (lineAt (lines s) r) >? 0
                     then cpLen (lineAt (lines s) r) - 1 else 0)
             <= cpLen (lineAt (lines s) r)).
  { intro r. pose proof (cpLen_nonneg (lineAt (lines s) r)).
    destruct (Z.gtb_spec (cpLen (lineAt (lines s) r)) 0); lia. }
  split; eexists; (split; [reflexivity |]); cbn [handleVimAction];
    unfold vimMoveUp, vimMoveDown, moveVertically, cursorValid;
    fold (stickyCol s);
    cbn [moveCursor set_preferredCol set_cursorCol set_cursorRow cursorRow
           cursorCol lines].
  - split; [split; [lia | apply Hcol] |]. split; [reflexivity | lia].
  - split; [split; [lia | apply Hcol] |]. split; [reflexivity | lia].
Qed.

Lemma vertical_motions_example :
  exists s',
    handleVimAction Words.scanner (mkState [lit "abc"; lit "d"; lit ""] 0 2)
      (vim_move_down 5) = Returned s'
    /\ cursorValid s' /\ cursorRow s' = 2.
Proof.
  destruct (proj2 (vertical_motions_keep_cursor_valid Words.scanner
                     (mkState [lit "abc"; lit "d"; lit ""] 0 2) 5
                     ltac:(unfold cursorValid; vm_compute;
                           repeat split; discriminate)
                     ltac:(vm_compute; discriminate)
                     ltac:(lia)))
    as (s' & Hrun & Hvalid & _ & Hlast).
  exists s'. split; [exact Hrun |]. split; [exact Hvalid |].
  apply Hlast. vm_compute. discriminate.
Defined.

(** X3: moving down and then up by the same count, or up and then down,
    brings the cursor back to where it was, when the motion stays inside the
    buffer, no sticky column is set and the cursor is on a character of its
    line (or in column 0 of an empty line). *)
Theorem vertical_round_trip :
  forall (W : WordScanner) s count,
    preferredCol s = None ->
    0 <= count ->
    cursorCol s <= lastCol (lineAt (lines s) (cursorRow s)) ->
    (0 <= cursorRow s -> cursorRow s + count <= len (lines s) - 1 ->
     exists s1 s2,
       handleVimAction W s (vim_move_down count) = Returned s1
       /\ handleVimAction W s1 (vim_move_up count) = Returned s2
       /\ lines s2 = lines s
       /\ cursorRow s2 = cursorRow s /\ cursorCol s2 = cursorCol s)
    /\ (0 <= cursorRow s - count -> cursorRow s <= len (lines s) - 1 ->
        exists s1 s2,
          handleVimAction W s (vim_move_up count) = Returned s1
          /\ handleVimAction W s1 (vim_move_down count) = Returned s2
          /\ lines s2 = lines s
          /\ cursorRow s2 = cursorRow s /\ cursorCol s2 = cursorCol s).
Proof.
  intros W s count Hpref Hcount Hcol. unfold lastCol in Hcol.
  split; intros Hlow Hhigh; eexists; eexists;
    (split; [reflexivity |]); (split; [reflexivity |]);
    unfold vimMoveUp, vimMoveDown, moveVertically;
    cbn [moveCursor set_preferredCol set_cursorCol set_cursorRow cursorRow
           cursorCol lines preferredCol];
    rewrite Hpref; (split; [reflexivity |]).
  - replace (Z.min (len (lines s) - 1) (cursorRow s + count))
      with (cursorRow s + count) by lia.
    replace (Z.max 0 (cursorRow s + count - count)) with (cursorRow s) by lia.
    split; [reflexivity | lia].
  - replace (Z.max 0 (cursorRow s - count)) with (cursorRow s - count) by lia.
    replace (Z.min (len (lines s) - 1) (cursorRow s - count + count))
      with (cursorRow s) by lia.
    split; [reflexivity | lia].
Qed.

Lemma vertical_round_trip_example :
  exists s1 s2,
    handleVimAction Words.scanner
      (mkState [lit "long line"; lit "x"; lit "y"] 0 5) (vim_move_down 2)
    = Returned s1
    /\ handleVimAction Words.scanner s1 (vim_move_up 2) = Returned s2
    /\ lines s2 = [lit "long line"; lit "x"; lit "y"]
    /\ cursorRow s2 = 0 /\ cursorCol s2 = 5.
Proof.
  apply (proj1 (vertical_round_trip Words.scanner
                  (mkState [lit "long line"; lit "x"; lit "y"] 0 5) 2
                  eq_refl ltac:(lia)
                  ltac:(vm_compute; discriminate))).
  - vm_compute. discriminate.
  - vm_compute. discriminate.
Defined.

(** ** Moving right over combining marks *)

Section RightOverMarks.

Variable W : WordScanner.

Lemma skipMarksBefore_spec :
  forall n cps L c,
    L <= len cps -> c <= L - 1 -> n = Z.to_nat (L - 1 - c) ->
    let r := skipMarksBefore W n cps L c in
    c <= r <= L - 1
    /\ (forall k, c <= k < r -> isCombiningMark W (at_ cps k) = true)
    /\ (isCombiningMark W (at_ cps r) = false \/ r = L - 1).
Proof.
  induction n as [| n IH]; intros cps L c HL Hc Hn; cbn [skipMarksBefore].
  - split; [lia |]. split; [intros k Hk; lia | right; lia].
  - destruct (Z.ltb_spec c (len cps)) as [_ | Hge]; [| lia].
    cbn [andb].
    destruct (isCombiningMark W (at_ cps c)) eqn:Hmark; cbn [andb].
    + destruct (Z.ltb_spec c (L - 1)) as [_ | Hge]; [| lia].
      destruct (IH cps L (c + 1) HL ltac:(lia) ltac:(lia))
        as (Hb & Hall & Hstop).
      split; [lia |]. split; [| exact Hstop].
      intros k Hk. destruct (Z.eq_dec k c) as [-> | Hne]; [exact Hmark |].
      apply Hall. lia.
    + split; [lia |]. split; [intros k Hk; lia | left; exact Hmark].
Qed.

(** X4: one step to the right inside a line passes over combining marks:
    the cursor lands behind its old column, every column it passed is a
    combining mark, and it stops on a code point that is no combining mark
    or, at the latest, on the last column of the line. *)
Theorem move_right_skips_combining_marks :
  forall s,
    0 <= cursorCol s < cpLen (lineAt (lines s) (cursorRow s)) - 1 ->
    let cps := toCodePoints (lineAt (lines s) (cursorRow s)) in
    exists s',
      handleVimAction W s (vim_move_right 1) = Returned s'
      /\ cursorRow s' = cursorRow s
      /\ cursorCol s < cursorCol s' <= len cps - 1
      /\ (forall k,
             cursorCol s < k < cursorCol s' ->
             isCombiningMark W (at_ cps k) = true)
      /\ (isCombiningMark W (at_ cps (cursorCol s')) = false
          \/ cursorCol s' = len cps - 1).
Proof.
  intros s Hcol cps. cbn [handleVimAction]. unfold vimMoveRight.
  rewrite repeatSteps_once. unfold moveRightStep.
  destruct (Z.eqb_spec (cpLen (lineAt (lines s) (cursorRow s))) 0); [lia |].
  destruct (Z.ltb_spec (cursorCol s)
              (cpLen (lineAt (lines s) (cursorRow s)) - 1)); [| lia].
  eexists. split; [reflexivity |].
  cbn [moveCursor set_preferredCol set_cursorCol set_cursorRow cursorRow
         cursorCol].
  split; [reflexivity |].
  fold cps. change (cpLen (lineAt (lines s) (cursorRow s))) with (len cps) in *.
  destruct (skipMarksBefore_spec (Z.to_nat (len cps - 1 - (cursorCol s + 1)))
              cps (len cps) (cursorCol s + 1) ltac:(lia) ltac:(lia) eq_refl)
    as (Hb & Hall & Hstop).
  split; [lia |]. split; [| exact Hstop].
  intros k Hk. apply Hall. lia.
Qed.

End RightOverMarks.

Lemma move_right_skips_marks_example :
  exists s',
    handleVimAction Words.scanner
      (mkState [[101; 769; 769; 120; 121]%N] 0 0) (vim_move_right 1)
    = Returned s'
    /\ cursorCol s' = 3.
Proof.
  destruct (move_right_skips_combining_marks Words.scanner
              (mkState [[101; 769; 769; 120; 121]%N] 0 0)
              ltac:(vm_compute; split; [discriminate | reflexivity]))
    as (s' & Hrun & _).
  exists s'. split; [exact Hrun |].
  vm_compute in Hrun. injection Hrun as <-. reflexivity.
Defined.

(** ** Counted motions *)

Lemma to_nat_add :
  forall a b, 0 <= a -> 0 <= b ->
    Z.to_nat (a + b) = (Z.to_nat b + Z.to_nat a)%nat.
Proof. intros. lia. Qed.

Lemma repeatSteps_add :
  forall (A : Type) (body : A -> A) (init : A) (a b : Z),
    0 <= a -> 0 <= b ->
    repeatSteps (a + b) body init
    = repeatSteps b body (repeatSteps a body init).
Proof.
  intros A body init a b Ha Hb. unfold repeatSteps.
  rewrite to_nat_add by assumption. apply Nat.iter_add.
Qed.

Lemma moveCursor_twice :
  forall s r c r' c',
    moveCursor (moveCursor s r c None) r' c' None = moveCursor s r' c' None.
Proof. reflexivity. Qed.

Section CountedMotions.

Variable W : WordScanner.

Lemma wordForwardLoop_stuck :
  forall n ls r c,
    findNextWordAcrossLines W ls r c true = None ->
    wordForwardLoop W n ls r c = (r, c).
Proof.
  intros [| n] ls r c H; cbn [wordForwardLoop]; [reflexivity |].
  rewrite H. reflexivity.
Qed.

Lemma wordForwardLoop_add :
  forall a b ls r c,
    wordForwardLoop W (a + b) ls r c
    = wordForwardLoop W b ls (fst (wordForwardLoop W a ls r c))
        (snd (wordForwardLoop W a ls r c)).
Proof.
  induction a as [| a IH]; intros b ls r c; cbn [Nat.add wordForwardLoop].
  - reflexivity.
  - destruct (findNextWordAcrossLines W ls r c true) as [[r' c'] |] eqn:E.
    + apply IH.
    + cbn [fst snd]. symmetry. apply wordForwardLoop_stuck. exact E.
Qed.

Lemma wordBackwardLoop_stuck :
  forall n ls r c,
    findPrevWordAcrossLines W ls r c = None ->
    wordBackwardLoop W n ls r c = (r, c).
Proof.
  intros [| n] ls r c H; cbn [wordBackwardLoop]; [reflexivity |].
  rewrite H. reflexivity.
Qed.

Lemma wordBackwardLoop_add :
  forall a b ls r c,
    wordBackwardLoop W (a + b) ls r c
    = wordBackwardLoop W b ls (fst (wordBackwardLoop W a ls r c))
        (snd (wordBackwardLoop W a ls r c)).
Proof.
  induction a as [| a IH]; intros b ls r c; cbn [Nat.add wordBackwardLoop].
  - reflexivity.
  - destruct (findPrevWordAcrossLines W ls r c) as [[r' c'] |] eqn:E.
    + apply IH.
    + cbn [fst snd]. symmetry. apply wordBackwardLoop_stuck. exact E.
Qed.

(** X5: the motions left, right, word-forward and word-backward repeat one
    step: for counts that are not negative, a motion by [a + b] gives the
    state of the motion by [a] followed by the motion by [b]. *)
Theorem counted_motions_compose :
  forall s a b,
    0 <= a -> 0 <= b ->
    (exists s1,
        handleVimAction W s (vim_move_left a) = Returned s1
        /\ handleVimAction W s1 (vim_move_left b)
           = handleVimAction W s (vim_move_left (a + b)))
    /\ (exists s1,
           handleVimAction W s (vim_move_right a) = Returned s1
           /\ handleVimAction W s1 (vim_move_right b)
              = handleVimAction W s (vim_move_right (a + b)))
    /\ (exists s1,
           handleVimAction W s (vim_move_word_forward a) = Returned s1
           /\ handleVimAction W s1 (vim_move_word_forward b)
              = handleVimAction W s (vim_move_word_forward (a + b)))
    /\ (exists s1,
           handleVimAction W s (vim_move_word_backward a) = Returned s1
           /\ handleVimAction W s1 (vim_move_word_backward b)
              = handleVimAction W s (vim_move_word_backward (a + b))).
Proof.
  intros s a b Ha Hb.
  repeat split; eexists; (split; [reflexivity |]); cbn [handleVimAction];
    f_equal.
  - unfold vimMoveLeft. rewrite (repeatSteps_add _ _ _ a b Ha Hb).
    destruct (repeatSteps a _ _) as [r c].
    cbn [moveCursor set_preferredCol set_cursorCol set_cursorRow cursorRow
           cursorCol lines].
    destruct (repeatSteps b _ _) as [r' c']. reflexivity.
  - unfold vimMoveRight. rewrite (repeatSteps_add _ _ _ a b Ha Hb).
    destruct (repeatSteps a _ _) as [r c].
    cbn [moveCursor set_preferredCol set_cursorCol set_cursorRow cursorRow
           cursorCol lines].
    destruct (repeatSteps b _ _) as [r' c']. reflexivity.
  - unfold vimMoveWordForward.
    replace (Z.to_nat (a + b)) with (Z.to_nat a + Z.to_nat b)%nat by lia.
    rewrite wordForwardLoop_add.
    destruct (wordForwardLoop W (Z.to_nat a) _ _ _) as [r c].
    cbn [moveCursor set_preferredCol set_cursorCol set_cursorRow cursorRow
           cursorCol lines fst snd].
    destruct (wordForwardLoop W (Z.to_nat b) _ _ _) as [r' c']. reflexivity.
  - unfold vimMoveWordBackward.
    replace (Z.to_nat (a + b)) with (Z.to_nat a + Z.to_nat b)%nat by lia.
    rewrite wordBackwardLoop_add.
    destruct (wordBackwardLoop W (Z.to_nat a) _ _ _) as [r c].
    cbn [moveCursor set_preferredCol set_cursorCol set_cursorRow cursorRow
           cursorCol lines fst snd].
    destruct (wordBackwardLoop W (Z.to_nat b) _ _ _) as [r' c']. reflexivity.
Qed.

End CountedMotions.

Lemma counted_motions_example :
  exists s1,
    handleVimAction Words.scanner (mkState [lit "one two"; lit "three"] 0 0)
      (vim_move_word_forward 1) = Returned s1
    /\ handleVimAction Words.scanner s1 (vim_move_word_forward 1)
       = handleVimAction Words.scanner
           (mkState [lit "one two"; lit "three"] 0 0)
           (vim_move_word_forward (1 + 1)).
Proof.
  apply (proj1 (proj2 (proj2
           (counted_motions_compose Words.scanner
              (mkState [lit "one two"; lit "three"] 0 0) 1 1
              ltac:(lia) ltac:(lia))))).
Defined.

(** ** Jumping to a line *)

(** X6: [vim_move_to_line] clamps the one-based line number to the rows of
    the buffer and puts the cursor in column 0: a number of at most 1 gives
    the first row, a number of at least the number of lines the last row.
    On an empty [lines] array the cursor row becomes -1. *)
Theorem move_to_line_clamps :
  forall (W : WordScanner) s lineNumber,
    exists s',
      handleVimAction W s (vim_move_to_line lineNumber) = Returned s'
      /\ cursorCol s' = 0
      /\ lines s' = lines s
      /\ (lines s <> [] -> 0 <= cursorRow s' < len (lines s))
      /\ (lines s <> [] -> lineNumber <= 1 -> cursorRow s' = 0)
      /\ (1 <= lineNumber <= len (lines s) -> cursorRow s' = lineNumber - 1)
      /\ (len (lines s) <= lineNumber -> cursorRow s' = len (lines s) - 1)
      /\ (lines s = [] -> cursorRow s' = -1).
Proof.
  intros W s lineNumber. eexists. split; [reflexivity |].
  unfold vimMoveToLine.
  cbn [moveCursor set_preferredCol set_cursorCol set_cursorRow cursorRow
         cursorCol lines].
  pose proof (len_nonneg _ (lines s)) as Hlen.
  assert (Hne : lines s <> [] -> 0 < len (lines s)).
  { intro H. destruct (Z.eq_dec (len (lines s)) 0) as [E | E]; [| lia].
    apply len_nil_iff in E. contradiction. }
  split; [reflexivity |]. split; [reflexivity |].
  split; [intro H; apply Hne in H; lia |].
  split; [intros H1 H2; apply Hne in H1; lia |].
  split; [intro H; lia |]. split; [intro H; lia |].
  intro H. rewrite H. unfold len. cbn. lia.
Qed.

(** ** The first character of a line that is no white space *)

Lemma skipSpaces_spec :
  forall cps c,
    let r := skipSpaces cps c in
    c <= r <= c + len cps
    /\ (forall k, 0 <= k < r - c ->
                  exists cp, at_ cps k = Some cp /\ testSpace cp = true)
    /\ (forall cp, at_ cps (r - c) = Some cp -> testSpace cp = false).
Proof.
  induction cps as [| cp cps IH]; intros c; cbn [skipSpaces].
  - split; [unfold len; cbn; lia |]. split.
    + intros k Hk. lia.
    + intros cp H. replace (c - c) with 0 in H by lia. discriminate H.
  - destruct (testSpace cp) eqn:Hsp.
    + destruct (IH (c + 1)) as (Hb & Hall & Hstop).
      split; [unfold len in *; cbn [length]; lia |]. split.
      * intros k Hk. destruct (Z.eq_dec k 0) as [-> | Hk0].
        -- exists cp. split; [reflexivity | exact Hsp].
        -- destruct (Hall (k - 1) ltac:(lia)) as (cp' & Hat & Hsp').
           exists cp'. split; [| exact Hsp'].
           unfold at_ in *.
           destruct (Z.ltb_spec k 0); [lia |].
           destruct (Z.ltb_spec (k - 1) 0); [lia |].
           replace (Z.to_nat k) with (S (Z.to_nat (k - 1))) by lia.
           exact Hat.
      * intros cp' Hat. apply Hstop.
        unfold at_ in *.
        destruct (Z.ltb_spec (skipSpaces cps (c + 1) - c) 0); [lia |].
        destruct (Z.ltb_spec (skipSpaces cps (c + 1) - (c + 1)) 0); [lia |].
        replace (Z.to_nat (skipSpaces cps (c + 1) - c))
          with (S (Z.to_nat (skipSpaces cps (c + 1) - (c + 1)))) in Hat by lia.
        exact Hat.
    + split; [unfold len; cbn [length]; lia |]. split.
      * intros k Hk. lia.
      * intros cp' Hat. replace (c - c) with 0 in Hat by lia.
        cbn in Hat. injection Hat as <-. exact Hsp.
Qed.

(** X7: [vim_move_to_first_nonwhitespace] and [vim_insert_at_line_start] do
    the same: the cursor goes to the first code point of its line that is no
    white space, that is, every code point before the new column is white
    space and the one in the new column, if there is one, is not; on a line
    of white space only the cursor goes behind the last code point. *)
Theorem first_nonwhitespace_column :
  forall (W : WordScanner) s,
    let cps := toCodePoints (lineAt (lines s) (cursorRow s)) in
    exists s',
      handleVimAction W s vim_move_to_first_nonwhitespace = Returned s'
      /\ handleVimAction W s vim_insert_at_line_start = Returned s'
      /\ cursorRow s' = cursorRow s
      /\ lines s' = lines s
      /\ 0 <= cursorCol s' <= len cps
      /\ (forall k, 0 <= k < cursorCol s' ->
                    exists cp, at_ cps k = Some cp /\ testSpace cp = true)
      /\ (forall cp, at_ cps (cursorCol s') = Some cp -> testSpace cp = false).
Proof.
  intros W s cps. eexists. split; [reflexivity |]. split; [reflexivity |].
  unfold vimMoveToFirstNonWhitespace.
  cbn [moveCursor set_preferredCol set_cursorCol set_cursorRow cursorRow
         cursorCol lines].
  fold cps. destruct (skipSpaces_spec cps 0) as (Hb & Hall & Hstop).
  split; [reflexivity |]. split; [reflexivity |]. split; [lia |]. split.
  - intros k Hk. apply Hall. lia.
  - intros cp Hat. apply Hstop.
    replace (skipSpaces cps 0 - 0) with (skipSpaces cps 0) by lia. exact Hat.
Qed.

Lemma move_to_line_example :
  exists s',
    handleVimAction Words.scanner (mkState [lit "a"; lit "b"; lit "c"] 0 1)
      (vim_move_to_line 7) = Returned s'
    /\ cursorRow s' = 2 /\ cursorCol s' = 0.
Proof.
  destruct (move_to_line_clamps Words.scanner
              (mkState [lit "a"; lit "b"; lit "c"] 0 1) 7)
    as (s' & Hrun & Hcol & _ & _ & _ & _ & Hlast & _).
  exists s'. split; [exact Hrun |]. split; [| exact Hcol].
  apply Hlast. vm_compute. discriminate.
Defined.

Lemma first_nonwhitespace_example :
  exists s',
    handleVimAction Words.scanner (mkState [lit "  ab"] 0 3)
      vim_move_to_first_nonwhitespace = Returned s'
    /\ cursorCol s' = 2.
Proof.
  destruct (first_nonwhitespace_column Words.scanner
              (mkState [lit "  ab"] 0 3))
    as (s' & Hrun & _).
  exists s'. split; [exact Hrun |].
  vm_compute in Hrun. injection Hrun as <-. reflexivity.
Defined.

(** ** Repeating a search *)

Lemma set_lastSearchQuery_same :
  forall s q, lastSearchQuery s = Some q -> set_lastSearchQuery s (Some q) = s.
Proof.
  intros s q H. destruct s. cbn in *. subst. reflexivity.
Qed.

(** X8: with a saved query that is not empty, [vim_search_next] gives what
    [vim_search] gives for the saved query, in either direction. *)
Theorem search_next_is_search_with_saved_query :
  forall (W : WordScanner) s q d,
    lastSearchQuery s = Some q ->
    q <> [] ->
    handleVimAction W s (vim_search_next d)
    = handleVimAction W s (vim_search q d).
Proof.
  intros W s q d Hq Hne. cbn [handleVimAction].
  unfold vimSearchNext, vimSearch. rewrite Hq.
  rewrite (truthy_nonempty q Hne). cbn [negb orEmpty].
  destruct (searchScan _ _ _ _ _) as [[fr fc] |]; [| reflexivity].
  destruct (negb (fr =? -1)); f_equal; symmetry;
    apply set_lastSearchQuery_same; exact Hq.
Qed.

Lemma search_next_example :
  handleVimAction Words.scanner
    (set_lastSearchQuery (mkState [lit "ab"; lit "cb"] 0 1) (Some (lit "b")))
    (vim_search_next forward)
  = handleVimAction Words.scanner
      (set_lastSearchQuery (mkState [lit "ab"; lit "cb"] 0 1) (Some (lit "b")))
      (vim_search (lit "b") forward).
Proof.
  apply (search_next_is_search_with_saved_query Words.scanner
           (set_lastSearchQuery (mkState [lit "ab"; lit "cb"] 0 1)
              (Some (lit "b")))
           (lit "b") forward eq_refl).
  discriminate.
Defined.

(** ** A search from a row behind the buffer *)

Lemma indexOf_in_empty :
  forall q from, q <> [] -> indexOf [] q from = -1.
Proof.
  intros [| u q] from H; [contradiction |].
  unfold indexOf, clamp, len. cbn [length Z.of_nat].
  replace (Z.min (Z.max from 0) 0) with 0 by lia. reflexivity.
Qed.

Lemma lineAt_outside :
  forall ls r, len ls <= r -> lineAt ls r = [].
Proof.
  intros ls r H. unfold lineAt.
  destruct (at_ ls r) as [x |] eqn:E; [| reflexivity].
  apply at_range in E. lia.
Qed.

Lemma at_outside :
  forall (A : Type) (xs : list A) (i : Z), len xs <= i -> at_ xs i = None.
Proof.
  intros A xs i H. destruct (at_ xs i) as [x |] eqn:E; [| reflexivity].
  apply at_range in E. lia.
Qed.

Lemma searchBelow_outside :
  forall n ls q i, len ls <= i -> searchBelow n ls q i = Some notFound.
Proof.
  intros [| n] ls q i H; cbn [searchBelow]; [reflexivity |].
  destruct (Z.ltb_spec i (len ls)); [lia | reflexivity].
Qed.

(** The wrap-around from a row behind the buffer: it finds the first line
    with a match, and runs to the end of the array otherwise. *)
Lemma searchWrap_behind_buffer :
  forall n ls q R C i,
    0 <= i <= len ls -> len ls <= R -> n = Z.to_nat (R + 1 - i) ->
    (forall r c, i <= r -> ~ matchAt ls q r c) ->
    searchWrap n ls q R C i = None.
Proof.
  induction n as [| n IH]; intros ls q R C i Hi HR Hn Hno; [lia |].
  cbn [searchWrap].
  destruct (Z.leb_spec i R); [| lia].
  destruct (Z.eq_dec i (len ls)) as [-> | Hlt].
  - rewrite at_outside by lia. reflexivity.
  - destruct (at_some _ ls i) as [line Hl]; [lia |]. rewrite Hl.
    destruct (Z.eqb_spec (indexOf line q 0) (-1)) as [E | E].
    + cbn [negb andb]. apply IH; try lia.
      intros r c Hr. apply Hno. lia.
    + exfalso.
      destruct (first_match_in_row ls q i line Hl E) as [Hm _].
      exact (Hno i _ ltac:(lia) Hm).
Qed.

Lemma searchWrap_behind_buffer_found :
  forall n ls q R C i r c,
    0 <= i <= len ls -> len ls <= R -> n = Z.to_nat (R + 1 - i) ->
    i <= r -> matchAt ls q r c ->
    exists fr fc,
      searchWrap n ls q R C i = Some (fr, fc) /\ matchAt ls q fr fc.
Proof.
  induction n as [| n IH]; intros ls q R C i r c Hi HR Hn Hr Hm.
  - apply matchAt_row in Hm. lia.
  - pose proof (matchAt_row _ _ _ _ Hm) as Hrow.
    cbn [searchWrap].
    destruct (Z.leb_spec i R); [| lia].
    destruct (at_some _ ls i) as [line Hl]; [lia |]. rewrite Hl.
    destruct (Z.eqb_spec (indexOf line q 0) (-1)) as [E | E].
    + cbn [negb andb].
      assert (Hne : r <> i).
      { intros ->. exact (no_match_in_row ls q i line Hl E c Hm). }
      apply (IH ls q R C (i + 1) r c); lia || assumption.
    + cbn [negb andb].
      destruct (Z.ltb_spec i R) as [_ | Hge]; [| lia]. cbn [orb].
      destruct (first_match_in_row ls q i line Hl E) as [Hfirst _].
      eauto.
Qed.

(** X9: with the cursor row behind the last row of the buffer (as on an
    empty [lines] array), the forward search for a query that is not empty
    throws a [TypeError] when the query occurs nowhere in the buffer, and
    moves the cursor onto an occurrence when there is one. *)
Theorem search_behind_buffer_throws_without_match :
  forall (W : WordScanner) s q,
    len (lines s) <= cursorRow s ->
    q <> [] ->
    ((forall r c, ~ matchAt (lines s) q r c) ->
     handleVimAction W s (vim_search q forward) = TypeError)
    /\ (forall r c,
           matchAt (lines s) q r c ->
           exists s',
             handleVimAction W s (vim_search q forward) = Returned s'
             /\ matchAt (lines s) q (cursorRow s') (cursorCol s')).
Proof.
  intros W s q Hrow Hq. pose proof (len_nonneg _ (lines s)) as Hlen.
  cbn [handleVimAction]. unfold vimSearch, searchScan.
  rewrite (lineAt_outside _ _ Hrow), (indexOf_in_empty q _ Hq).
  change (negb (-1 =? -1)) with false. cbv iota.
  rewrite searchBelow_outside by lia.
  unfold notFound. change (-1 =? -1) with true. cbv iota.
  split.
  - intro Hno.
    rewrite (searchWrap_behind_buffer (Z.to_nat (cursorRow s + 1)) (lines s) q
               (cursorRow s) (cursorCol s) 0); try lia; [reflexivity |].
    intros r c _. apply Hno.
  - intros r c Hm.
    destruct (searchWrap_behind_buffer_found (Z.to_nat (cursorRow s + 1))
                (lines s) q (cursorRow s) (cursorCol s) 0 r c)
      as (fr & fc & -> & Hfound); try lia; try assumption.
    + apply matchAt_row in Hm. lia.
    + pose proof (matchAt_row _ _ _ _ Hfound) as Hfr.
      destruct (Z.eqb_spec fr (-1)); [lia |]. cbn [negb].
      eexists. split; [reflexivity |]. exact Hfound.
Qed.

Lemma search_empty_buffer_example :
  handleVimAction Words.scanner (mkState [] 0 0) (vim_search (lit "b") forward)
  = TypeError.
Proof.
  apply (proj1 (search_behind_buffer_throws_without_match Words.scanner
                  (mkState [] 0 0) (lit "b")
                  ltac:(vm_compute; discriminate) ltac:(discriminate))).
  intros r c Hm. apply matchAt_row in Hm. vm_compute in Hm.
  destruct Hm as [H1 H2]. destruct r; try discriminate; contradiction.
Defined.

(** ** The search on lines without surrogate pairs *)

Lemma arrayFrom_noSurrogates :
  forall line, noSurrogates line -> length (arrayFrom line) = length line.
Proof.
  induction line as [| u r IH]; intros Hno; [reflexivity |].
  destruct r as [| v r']; [reflexivity |].
  rewrite arrayFrom_pair.
  rewrite (Hno u (or_introl eq_refl)). cbn [andb length].
  f_equal. apply IH. intros w Hw. apply Hno. right. exact Hw.
Qed.

Lemma cpLen_noSurrogates :
  forall line, noSurrogates line -> cpLen line = len line.
Proof.
  intros line H. unfold cpLen, toCodePoints, len.
  rewrite (arrayFrom_noSurrogates line H). reflexivity.
Qed.

(** What the forward scan finds is an occurrence of the query. *)
Lemma searchScan_found_is_match :
  forall ls R C q fr fc,
    0 <= R < len ls ->
    searchScan ls R C q forward = Some (fr, fc) ->
    fr <> -1 ->
    matchAt ls q fr fc.
Proof.
  intros ls R C q fr fc HR H Hfr. unfold searchScan in H.
  destruct (at_some _ ls R HR) as [line Hl].
  assert (Hline : lineAt ls R = line) by (unfold lineAt; rewrite Hl; reflexivity).
  rewrite Hline in H.
  destruct (Z.eqb_spec (indexOf line q (C + 1)) (-1)) as [E | E];
    cbn [negb] in H.
  - destruct (searchBelow (Z.to_nat (len ls - (R + 1))) ls q (R + 1))
      as [[br bc] |] eqn:Hbelow; [| discriminate].
    destruct (searchBelow_spec (Z.to_nat (len ls - (R + 1))) ls q (R + 1)
                br bc ltac:(lia) eq_refl Hbelow)
      as [[Hbr _] | (Hle & Hm & _)].
    + subst br. change (-1 =? -1) with true in H. cbv iota in H.
      destruct (searchWrap_spec (Z.to_nat (R + 1)) ls q R C 0 fr fc
                  ltac:(lia) ltac:(lia) ltac:(f_equal; lia) H)
        as [(Hwr & _) | (_ & Hm & _)]; [contradiction | exact Hm].
    + destruct (Z.eqb_spec br (-1)); [lia |].
      injection H as <- <-. exact Hm.
  - injection H as <- <-.
    destruct (indexOf_found line q (C + 1) _ eq_refl E) as (Hocc & _).
    exists line. split; assumption.
Qed.

Lemma matchAt_valid :
  forall ls q r c,
    (forall line, In line ls -> noSurrogates line) ->
    matchAt ls q r c -> posValid ls r c.
Proof.
  intros ls q r c Hls Hm. pose proof (matchAt_row _ _ _ _ Hm) as Hr.
  destruct Hm as (line & Hl & Hocc).
  split; [exact Hr |].
  unfold lineAt. rewrite Hl. cbn [orEmpty].
  rewrite cpLen_noSurrogates.
  - split; [exact (occursAt_nonneg _ _ _ Hocc)
           | exact (occursAt_le_len _ _ _ Hocc)].
  - apply Hls. apply at_nth_error in Hl as [Hl _].
    exact (nth_error_In _ _ Hl).
Qed.

(** X10: in a buffer whose lines hold no surrogate pair, where code units
    and code points coincide, [vim_search] and [vim_search_next] return a
    state and keep a valid cursor valid, for every query and direction. *)
Theorem search_keeps_cursor_valid_without_surrogates :
  forall (W : WordScanner) s q d,
    cursorValid s ->
    (forall line, In line (lines s) -> noSurrogates line) ->
    (exists s',
        handleVimAction W s (vim_search q d) = Returned s'
        /\ lines s' = lines s /\ cursorValid s')
    /\ (exists s',
           handleVimAction W s (vim_search_next d) = Returned s'
           /\ lines s' = lines s /\ cursorValid s').
Proof.
  intros W s q d Hvalid Hls. pose proof Hvalid as [Hrow _].
  assert (Hscan : forall q' fr fc,
             searchScan (lines s) (cursorRow s) (cursorCol s) q' d
             = Some (fr, fc) ->
             fr <> -1 -> posValid (lines s) fr fc).
  { intros q' fr fc H Hfr. destruct d.
    - apply (matchAt_valid _ q' _ _ Hls).
      exact (searchScan_found_is_match _ _ _ _ _ _ Hrow H Hfr).
    - cbn in H. injection H as <- <-. contradiction. }
  split; cbn [handleVimAction].
  - unfold vimSearch.
    destruct (searchScan_total (lines s) (cursorRow s) (cursorCol s) q d Hrow)
      as [[fr fc] Hs].
    rewrite Hs. destruct (Z.eqb_spec fr (-1)) as [E | E]; cbn [negb];
      eexists; (split; [reflexivity |]); (split; [reflexivity |]).
    + exact Hvalid.
    + exact (Hscan q fr fc Hs E).
  - unfold vimSearchNext.
    destruct (negb (truthy (lastSearchQuery s)));
      [eexists; split; [reflexivity |]; split; [reflexivity | exact Hvalid] |].
    destruct (searchScan_total (lines s) (cursorRow s) (cursorCol s)
                (orEmpty (lastSearchQuery s)) d Hrow) as [[fr fc] Hs].
    rewrite Hs. destruct (Z.eqb_spec fr (-1)) as [E | E]; cbn [negb];
      eexists; (split; [reflexivity |]); (split; [reflexivity |]).
    + exact Hvalid.
    + exact (Hscan _ fr fc Hs E).
Qed.

Lemma search_without_surrogates_example :
  exists s',
    handleVimAction Words.scanner (mkState [lit "ab"; lit "cb"] 0 1)
      (vim_search (lit "b") forward) = Returned s'
    /\ lines s' = [lit "ab"; lit "cb"] /\ cursorValid s'.
Proof.
  apply (proj1 (search_keeps_cursor_valid_without_surrogates Words.scanner
                  (mkState [lit "ab"; lit "cb"] 0 1) (lit "b") forward
                  ltac:(unfold cursorValid; vm_compute;
                        repeat split; discriminate)
                  ltac:(intros line [<- | [<- | []]] u Hu; vm_compute in Hu;
                        repeat (destruct Hu as [<- | Hu]; [reflexivity |]);
                        contradiction))).
Defined.

(** ** Yanking a selection *)

Lemma cpSlice_one :
  forall line col cp,
    at_ (toCodePoints line) col = Some cp -> cpSlice line col (col + 1) = cp.
Proof.
  intros line col cp H. pose proof (at_range _ _ _ _ H) as Hr.
  destruct (rows_around (toCodePoints line) col cp H) as [_ Hskip].
  unfold cpSlice, clamp.
  replace (Z.min (Z.max col 0) (len (toCodePoints line))) with col by lia.
  replace (Z.min (Z.max (col + 1) 0) (len (toCodePoints line)) - col)
    with 1 by lia.
  rewrite Hskip. cbn. apply app_nil_r.
Qed.

(** X11: setting the selection anchor and yanking at once puts into the
    clipboard the code point under the cursor, a surrogate pair as a whole,
    and leaves lines and cursor as they are. *)
Theorem anchor_then_yank_takes_the_code_point_under_the_cursor :
  forall (W : WordScanner) s cp,
    at_ (toCodePoints (lineAt (lines s) (cursorRow s))) (cursorCol s)
    = Some cp ->
    exists s1 s2,
      handleVimAction W s vim_set_selection_anchor = Returned s1
      /\ handleVimAction W s1 vim_yank_selection = Returned s2
      /\ clipboard s2 = Some cp
      /\ lines s2 = lines s
      /\ cursorRow s2 = cursorRow s /\ cursorCol s2 = cursorCol s.
Proof.
  intros W s cp Hcp. eexists. eexists.
  split; [reflexivity |]. split; [reflexivity |].
  unfold vimYankSelection.
  cbn [set_selectionAnchor selectionAnchor cursorRow cursorCol lines].
  unfold selectionRange, posBefore. cbn [fst snd].
  rewrite !Z.ltb_irrefl, Z.eqb_refl. cbn [orb andb].
  rewrite Z.eqb_refl. cbn [set_clipboard clipboard lines cursorRow cursorCol].
  rewrite (cpSlice_one _ _ _ Hcp). repeat split.
Qed.

Lemma anchor_then_yank_example :
  exists s1 s2,
    handleVimAction Words.scanner (mkState [twoEmojiAndB] 0 1)
      vim_set_selection_anchor = Returned s1
    /\ handleVimAction Words.scanner s1 vim_yank_selection = Returned s2
    /\ clipboard s2 = Some [55357; 56832]%N.
Proof.
  destruct (anchor_then_yank_takes_the_code_point_under_the_cursor
              Words.scanner (mkState [twoEmojiAndB] 0 1) [55357; 56832]%N
              eq_refl)
    as (s1 & s2 & H1 & H2 & H3 & _).
  exists s1, s2. repeat split; assumption.
Defined.

Lemma selectionRange_swap :
  forall ar ac r c,
    selectionRange (ar, ac) r c = selectionRange (r, c) ar ac.
Proof.
  intros ar ac r c. unfold selectionRange, posBefore. cbn [fst snd].
  destruct (Z.ltb_spec ar r); destruct (Z.ltb_spec r ar);
    destruct (Z.eqb_spec ar r); destruct (Z.eqb_spec r ar);
    destruct (Z.ltb_spec ac c); destruct (Z.ltb_spec c ac);
    cbn [orb andb]; try lia; try reflexivity;
    repeat f_equal; lia.
Qed.

(** X12: the yanked text does not depend on the direction of the selection:
    with anchor and cursor exchanged, [vim_yank_selection] puts the same
    text into the clipboard. *)
Theorem yank_selection_is_symmetric :
  forall (W : WordScanner) s ar ac,
    selectionAnchor s = Some (ar, ac) ->
    exists s1 s2,
      handleVimAction W s vim_yank_selection = Returned s1
      /\ handleVimAction W (swapSelection s ar ac) vim_yank_selection
         = Returned s2
      /\ clipboard s1 = clipboard s2.
Proof.
  intros W s ar ac Hanchor. eexists. eexists.
  split; [reflexivity |]. split; [reflexivity |].
  unfold vimYankSelection, swapSelection.
  cbn [set_selectionAnchor set_cursorCol set_cursorRow selectionAnchor
         cursorRow cursorCol lines].
  rewrite Hanchor, (selectionRange_swap (cursorRow s) (cursorCol s) ar ac).
  destruct (selectionRange (ar, ac) (cursorRow s) (cursorCol s))
    as [[[sr sc] er] ec].
  reflexivity.
Qed.

Lemma yank_symmetric_example :
  exists s1 s2,
    handleVimAction Words.scanner
      (set_selectionAnchor (mkState [lit "foo"; lit "bar"] 1 1) (Some (0, 1)))
      vim_yank_selection = Returned s1
    /\ handleVimAction Words.scanner
         (swapSelection
            (set_selectionAnchor (mkState [lit "foo"; lit "bar"] 1 1)
               (Some (0, 1))) 0 1)
         vim_yank_selection = Returned s2
    /\ clipboard s1 = clipboard s2.
Proof.
  apply (yank_selection_is_symmetric Words.scanner
           (set_selectionAnchor (mkState [lit "foo"; lit "bar"] 1 1)
              (Some (0, 1))) 0 1 eq_refl).
Defined.

(** ** Append and escape *)

(** X13: on a character of its line, [vim_append_at_cursor] moves the cursor
    one column to the right and [vim_escape_insert_mode] brings it back; at
    or behind the end of the line the append does not move, so that the
    escape leaves the cursor one column to the left (or in column 0). *)
Theorem append_then_escape :
  forall (W : WordScanner) s,
    0 <= cursorCol s ->
    exists s1 s2,
      handleVimAction W s vim_append_at_cursor = Returned s1
      /\ handleVimAction W s1 vim_escape_insert_mode = Returned s2
      /\ lines s2 = lines s /\ cursorRow s2 = cursorRow s
      /\ (cursorCol s < cpLen (lineAt (lines s) (cursorRow s)) ->
          cursorCol s1 = cursorCol s + 1 /\ cursorCol s2 = cursorCol s)
      /\ (cpLen (lineAt (lines s) (cursorRow s)) <= cursorCol s ->
          cursorCol s1 = cursorCol s
          /\ cursorCol s2 = Z.max 0 (cursorCol s - 1)).
Proof.
  intros W s Hcol. eexists. eexists.
  split; [reflexivity |]. split; [reflexivity |].
  unfold vimEscapeInsertMode, vimAppendAtCursor.
  cbn [moveCursor set_preferredCol set_cursorCol set_cursorRow cursorRow
         cursorCol lines].
  split; [reflexivity |]. split; [reflexivity |].
  destruct (Z.ltb_spec (cursorCol s) (cpLen (lineAt (lines s) (cursorRow s))))
    as [Hin | Hout].
  - split; [| intro; lia]. intros _.
    destruct (Z.gtb_spec (cursorCol s + 1) 0); lia.
  - split; [intro; lia |]. intros _.
    destruct (Z.gtb_spec (cursorCol s) 0); lia.
Qed.

Lemma append_then_escape_example :
  exists s1 s2,
    handleVimAction Words.scanner (mkState [lit "abc"] 0 1)
      vim_append_at_cursor = Returned s1
    /\ handleVimAction Words.scanner s1 vim_escape_insert_mode = Returned s2
    /\ cursorCol s1 = 2 /\ cursorCol s2 = 1.
Proof.
  destruct (append_then_escape Words.scanner (mkState [lit "abc"] 0 1)
              ltac:(vm_compute; discriminate))
    as (s1 & s2 & H1 & H2 & _ & _ & Hin & _).
  exists s1, s2. split; [exact H1 |]. split; [exact H2 |].
  apply Hin. vm_compute. reflexivity.
Defined.

(** ** Deleting lines *)

(** X14: [vim_delete_line] with a count of at least 1 that does not cover
    the whole buffer takes a snapshot and removes [k] rows from the cursor
    row on, where [k] is the count, at most the number of rows that remain;
    the other rows stay in order, and the cursor goes to column 0 of the row
    that follows the removed ones, or of the last row. *)
Theorem delete_line_removes_counted_rows :
  forall (W : WordScanner) s count,
    0 <= cursorRow s < len (lines s) ->
    1 <= count ->
    ~ (cursorRow s = 0 /\ len (lines s) <= count) ->
    let k := Z.min count (len (lines s) - cursorRow s) in
    exists s',
      handleVimAction W s (vim_delete_line count) = Returned s'
      /\ lines s'
         = firstn (Z.to_nat (cursorRow s)) (lines s)
           ++ skipn (Z.to_nat (cursorRow s + k)) (lines s)
      /\ len (lines s') = len (lines s) - k
      /\ cursorRow s' = Z.min (cursorRow s) (len (lines s) - k - 1)
      /\ cursorCol s' = 0
      /\ preferredCol s' = None
      /\ undoStack s' = snapshot s :: undoStack s.
Proof.
  intros W s count Hrow Hcount Hnotall k.
  cbn [handleVimAction]. unfold vimDeleteLine.
  destruct (Z.eqb_spec (len (lines s)) 0) as [E0 | E0]; [lia |].
  fold k.
  assert (Hk : 1 <= k < len (lines s)) by (unfold k; lia).
  assert (Hc : (len (lines s) =? 1) || (k >=? len (lines s)) = false).
  { apply orb_false_iff. split.
    - apply Z.eqb_neq. lia.
    - destruct (Z.geb_spec k (len (lines s))); [lia | reflexivity]. }
  rewrite Hc.
  assert (Hsplice :
            splice (lines (pushUndo s)) (cursorRow s) k []
            = firstn (Z.to_nat (cursorRow s)) (lines s)
              ++ skipn (Z.to_nat (cursorRow s + k)) (lines s)).
  { unfold splice. cbn [pushUndo set_undoStack lines app].
    unfold relIndex. destruct (Z.ltb_spec (cursorRow s) 0); [lia |].
    replace (Z.min (cursorRow s) (len (lines s))) with (cursorRow s) by lia.
    replace (Z.min (Z.max k 0) (len (lines s) - cursorRow s)) with k
      by (unfold k in *; lia).
    reflexivity. }
  assert (Hlen :
            len (firstn (Z.to_nat (cursorRow s)) (lines s)
                 ++ skipn (Z.to_nat (cursorRow s + k)) (lines s))
            = len (lines s) - k).
  { unfold len in *. rewrite length_app, length_firstn, length_skipn.
    unfold k in *. lia. }
  eexists. split; [reflexivity |].
  cbn [moveCursor set_preferredCol set_cursorCol set_cursorRow set_lines
         lines cursorRow cursorCol preferredCol undoStack].
  rewrite Hsplice, Hlen. repeat split.
Qed.

Lemma delete_line_example :
  exists s',
    handleVimAction Words.scanner
      (mkState [lit "a"; lit "b"; lit "c"; lit "d"] 1 0) (vim_delete_line 2)
    = Returned s'
    /\ lines s' = [lit "a"; lit "d"]
    /\ cursorRow s' = 1.
Proof.
  destruct (delete_line_removes_counted_rows Words.scanner
              (mkState [lit "a"; lit "b"; lit "c"; lit "d"] 1 0) 2
              ltac:(vm_compute; split; [discriminate | reflexivity])
              ltac:(lia)
              ltac:(vm_compute; intros [H _]; discriminate H))
    as (s' & Hrun & Hlines & _ & Hr & _).
  exists s'. split; [exact Hrun |]. split; [exact Hlines | exact Hr].
Defined.

(** ** The end of a base word *)

Section EndOfBaseWord.

Variable W : WordScanner.

Lemma skipMarks_spec :
  forall n cps i,
    n = Z.to_nat (len cps - i) ->
    let j := skipMarks W n cps i in
    i <= j
    /\ (forall k, i <= k < j ->
                  k < len cps /\ isCombiningMark W (at_ cps k) = true)
    /\ (j <? len cps) && isCombiningMark W (at_ cps j) = false.
Proof.
  induction n as [| n IH]; intros cps i Hn; cbn [skipMarks].
  - split; [lia |]. split; [intros k Hk; lia |].
    destruct (Z.ltb_spec i (len cps)); [lia | reflexivity].
  - destruct ((i <? len cps) && isCombiningMark W (at_ cps i)) eqn:Hcond.
    + apply andb_true_iff in Hcond as [Hlt Hmark]. apply Z.ltb_lt in Hlt.
      destruct (IH cps (i + 1) ltac:(lia)) as (Hb & Hall & Hstop).
      split; [lia |]. split; [| exact Hstop].
      intros k Hk. destruct (Z.eq_dec k i) as [-> | Hne]; [auto |].
      apply Hall. lia.
    + split; [lia |]. split; [intros k Hk; lia | exact Hcond].
Qed.

(** X15: [isAtEndOfBaseWord] holds exactly when the code point in the column
    is a word character and the first code point behind it that is no
    combining mark is missing (end of the line) or is no word character. *)
Theorem isAtEndOfBaseWord_iff :
  forall cps col,
    isAtEndOfBaseWord W cps col = true
    <-> isWordCharStrict W (at_ cps col) = true
        /\ exists j,
             col < j
             /\ (forall k, col < k < j ->
                           k < len cps
                           /\ isCombiningMark W (at_ cps k) = true)
             /\ (len cps <= j
                 \/ (isCombiningMark W (at_ cps j) = false
                     /\ isWordCharStrict W (at_ cps j) = false)).
Proof.
  intros cps col. unfold isAtEndOfBaseWord.
  destruct (skipMarks_spec (Z.to_nat (len cps - (col + 1))) cps (col + 1)
              eq_refl) as (Hb & Hall & Hstop).
  set (i := skipMarks W (Z.to_nat (len cps - (col + 1))) cps (col + 1)) in *.
  destruct (isWordCharStrict W (at_ cps col)) eqn:Hstrict; cbn [negb].
  - split.
    + intro H. split; [reflexivity |]. exists i. split; [lia |]. split.
      * intros k Hk. apply Hall. lia.
      * apply orb_true_iff in H as [H | H].
        -- left. apply Z.geb_le in H. lia.
        -- destruct (Z.ltb_spec i (len cps)) as [Hlt | Hge]; [| left; lia].
           right. cbn [andb] in Hstop. split; [exact Hstop |].
           apply negb_true_iff in H. exact H.
    + intros (_ & j & Hj & Hjall & Hjstop).
      assert (Heq : j = i).
      { destruct (Z.lt_trichotomy j i) as [Hlt | [Heq | Hgt]];
          [| exact Heq |].
        - destruct (Hall j ltac:(lia)) as [Hjl Hjm].
          destruct Hjstop as [Hge | [Hm _]]; [lia | congruence].
        - destruct (Hjall i ltac:(lia)) as [Hil Him].
          apply Z.ltb_lt in Hil. rewrite Hil, Him in Hstop.
          discriminate Hstop. }
      subst j. apply orb_true_iff.
      destruct Hjstop as [Hge | [_ Hs]].
      * left. apply Z.geb_le. lia.
      * right. rewrite Hs. reflexivity.
  - split; [discriminate |]. intros [H _]. discriminate H.
Qed.

End EndOfBaseWord.

Lemma isAtEndOfBaseWord_example :
  isAtEndOfBaseWord Words.scanner
    (toCodePoints [99; 97; 102; 101; 769; 32; 120]%N) 3 = true.
Proof.
  apply (proj2 (isAtEndOfBaseWord_iff Words.scanner
                  (toCodePoints [99; 97; 102; 101; 769; 32; 120]%N) 3)).
  split; [reflexivity |]. exists 5. split; [lia |]. split.
  - intros k Hk. assert (k = 4) by lia. subst k. split; reflexivity.
  - right. split; reflexivity.
Defined.

(** ** Operators and the motions they follow *)

(** X16: [vim_delete_word_backward] (and [vim_change_word_backward]) removes
    the text that [vim_move_word_backward] with the same count moves over:
    when the motion does not move, the state is returned as it is, without
    a snapshot; otherwise the range from the target of the motion to the
    cursor is replaced by nothing, after a snapshot. *)
Theorem delete_word_backward_follows_the_motion :
  forall (W : WordScanner) s count,
    exists target,
      handleVimAction W s (vim_move_word_backward count) = Returned target
      /\ handleVimAction W s (vim_change_word_backward count)
         = handleVimAction W s (vim_delete_word_backward count)
      /\ (cursorRow target = cursorRow s /\ cursorCol target = cursorCol s ->
          handleVimAction W s (vim_delete_word_backward count) = Returned s)
      /\ (~ (cursorRow target = cursorRow s
             /\ cursorCol target = cursorCol s) ->
          handleVimAction W s (vim_delete_word_backward count)
          = Returned
              (replaceRangeInternal (pushUndo s) (cursorRow target)
                 (cursorCol target) (cursorRow s) (cursorCol s) [])).
Proof.
  intros W s count. eexists. split; [reflexivity |]. split; [reflexivity |].
  cbn [handleVimAction]. unfold vimMoveWordBackward, vimDeleteWordBackward.
  destruct (wordBackwardLoop W (Z.to_nat count) (lines s) (cursorRow s)
              (cursorCol s)) as [r c].
  cbn [moveCursor set_preferredCol set_cursorCol set_cursorRow cursorRow
         cursorCol].
  unfold deleteRange.
  destruct (Z.eqb_spec r (cursorRow s)) as [Hr | Hr];
    destruct (Z.eqb_spec c (cursorCol s)) as [Hc | Hc]; cbn [negb orb];
    split; try (intros [H1 H2]; congruence); try reflexivity;
    intro H; try reflexivity; exfalso; apply H; split; assumption.
Qed.

Lemma delete_word_backward_example :
  exists s',
    handleVimAction Words.scanner (mkState [lit "one two"] 0 4)
      (vim_delete_word_backward 1) = Returned s'
    /\ lines s' = [lit "two"]
    /\ cursorRow s' = 0 /\ cursorCol s' = 0
    /\ undoStack s' = [snapshot (mkState [lit "one two"] 0 4)].
Proof.
  destruct (delete_word_backward_follows_the_motion Words.scanner
              (mkState [lit "one two"] 0 4) 1)
    as (target & Hmove & _ & _ & Hdelete).
  vm_compute in Hmove. injection Hmove as <-.
  eexists. split.
  - apply Hdelete. cbn. intros [_ H]. discriminate H.
  - repeat split.
Defined.

(** X17: without selection anchor and on a character of the line,
    [vim_delete_char] with a count that reaches the end of the line does
    what [vim_delete_to_end_of_line] does, and [vim_change_movement] to the
    right does what [vim_delete_char] does with the same count. *)
Theorem delete_char_to_the_right :
  forall (W : WordScanner) s count,
    selectionAnchor s = None ->
    cursorCol s < cpLen (lineAt (lines s) (cursorRow s)) ->
    handleVimAction W s (vim_change_movement move_l count)
    = handleVimAction W s (vim_delete_char count)
    /\ (cpLen (lineAt (lines s) (cursorRow s)) - cursorCol s <= count ->
        handleVimAction W s (vim_delete_char count)
        = handleVimAction W s vim_delete_to_end_of_line).
Proof.
  intros W s count Hanchor Hcol. cbn [handleVimAction].
  unfold vimChangeMovement, vimDeleteChar, vimDeleteToEndOfLine.
  rewrite Hanchor.
  destruct (Z.ltb_spec (cursorCol s) (cpLen (lineAt (lines s) (cursorRow s))));
    [| lia].
  split.
  - do 2 f_equal. lia.
  - intro Hcount. do 2 f_equal. lia.
Qed.

Lemma delete_char_to_the_right_example :
  handleVimAction Words.scanner (mkState [lit "abc"] 0 1) (vim_delete_char 9)
  = handleVimAction Words.scanner (mkState [lit "abc"] 0 1)
      vim_delete_to_end_of_line.
Proof.
  apply (proj2 (delete_char_to_the_right Words.scanner
                  (mkState [lit "abc"] 0 1) 9 eq_refl
                  ltac:(vm_compute; reflexivity))).
  vm_compute. discriminate.
Defined.

(** X18: in a buffer of more than one line, [vim_change_movement] downwards
    does what [vim_change_line] does with the same count, when the count
    covers at least one row. *)
Theorem change_down_is_change_line :
  forall (W : WordScanner) s count,
    1 < len (lines s) ->
    0 < Z.min count (len (lines s) - cursorRow s) ->
    handleVimAction W s (vim_change_movement move_j count)
    = handleVimAction W s (vim_change_line count).
Proof.
  intros W s count Hlen Hcount. cbn [handleVimAction].
  unfold vimChangeMovement, vimChangeLine.
  destruct (Z.gtb_spec (Z.min count (len (lines s) - cursorRow s)) 0);
    [| lia].
  destruct (Z.eqb_spec (len (lines s)) 1); [lia |].
  destruct (Z.eqb_spec (len (lines s)) 0); [lia | reflexivity].
Qed.

Lemma change_down_example :
  handleVimAction Words.scanner (mkState [lit "a"; lit "b"; lit "c"] 1 0)
    (vim_change_movement move_j 2)
  = handleVimAction Words.scanner (mkState [lit "a"; lit "b"; lit "c"] 1 0)
      (vim_change_line 2).
Proof.
  apply (change_down_is_change_line Words.scanner
           (mkState [lit "a"; lit "b"; lit "c"] 1 0) 2);
    vm_compute; reflexivity.
Defined.

(** ** Right and back *)

(** X19: one step to the right and one step to the left bring the cursor
    back, when the cursor is on a character of its line (or on an empty
    line), the step to the right can move, and the character behind the
    cursor is no combining mark that the step would pass over. The step may
    lead onto the next row and back. *)
Theorem right_then_left_round_trip :
  forall (W : WordScanner) s,
    let L := cpLen (lineAt (lines s) (cursorRow s)) in
    let cps := toCodePoints (lineAt (lines s) (cursorRow s)) in
    0 <= cursorRow s ->
    (L = 0 /\ cursorCol s = 0) \/ 0 <= cursorCol s <= L - 1 ->
    cursorCol s < L - 1 \/ cursorRow s < len (lines s) - 1 ->
    (cursorCol s + 1 < L - 1 ->
     isCombiningMark W (at_ cps (cursorCol s + 1)) = false) ->
    exists s1 s2,
      handleVimAction W s (vim_move_right 1) = Returned s1
      /\ handleVimAction W s1 (vim_move_left 1) = Returned s2
      /\ ~ (cursorRow s1 = cursorRow s /\ cursorCol s1 = cursorCol s)
      /\ lines s2 = lines s
      /\ cursorRow s2 = cursorRow s /\ cursorCol s2 = cursorCol s.
Proof.
  intros W s L cps Hrow Hon Hcan Hmark.
  eexists. eexists. split; [reflexivity |]. split; [reflexivity |].
  unfold vimMoveLeft, vimMoveRight. rewrite !repeatSteps_once.
  unfold moveRightStep. fold L. fold cps.
  destruct (Z.eqb_spec L 0) as [Hempty | Hfull].
  - destruct (Z.ltb_spec (cursorRow s) (len (lines s) - 1)); [| lia].
    cbn [moveCursor set_preferredCol set_cursorCol set_cursorRow cursorRow
           cursorCol lines].
    unfold moveLeftStep. change (0 >? 0) with false. cbv iota.
    destruct (Z.gtb_spec (cursorRow s + 1) 0); [| lia].
    replace (cursorRow s + 1 - 1) with (cursorRow s) by lia. fold L.
    destruct (Z.eqb_spec L 0); [| lia].
    cbn [moveCursor set_preferredCol set_cursorCol set_cursorRow cursorRow
           cursorCol lines].
    repeat split; lia.
  - destruct (Z.ltb_spec (cursorCol s) (L - 1)) as [Hin | Hlast].
    + assert (Hskip :
                skipMarksBefore W (Z.to_nat (L - 1 - (cursorCol s + 1))) cps L
                  (cursorCol s + 1) = cursorCol s + 1).
      { destruct (Z.to_nat (L - 1 - (cursorCol s + 1))) as [| n] eqn:En;
          cbn [skipMarksBefore]; [reflexivity |].
        rewrite Hmark by lia. rewrite andb_false_r. reflexivity. }
      rewrite Hskip.
      cbn [moveCursor set_preferredCol set_cursorCol set_cursorRow cursorRow
             cursorCol lines].
      unfold moveLeftStep.
      destruct (Z.gtb_spec (cursorCol s + 1) 0); [| lia].
      cbn [moveCursor set_preferredCol set_cursorCol set_cursorRow cursorRow
             cursorCol lines].
      repeat split; lia.
    + destruct (Z.ltb_spec (cursorRow s) (len (lines s) - 1)); [| lia].
      cbn [moveCursor set_preferredCol set_cursorCol set_cursorRow cursorRow
             cursorCol lines].
      unfold moveLeftStep. change (0 >? 0) with false. cbv iota.
      destruct (Z.gtb_spec (cursorRow s + 1) 0); [| lia].
      replace (cursorRow s + 1 - 1) with (cursorRow s) by lia. fold L.
      destruct (Z.eqb_spec L 0); [lia |].
      cbn [moveCursor set_preferredCol set_cursorCol set_cursorRow cursorRow
             cursorCol lines].
      repeat split; lia.
Qed.

Lemma right_then_left_example :
  exists s1 s2,
    handleVimAction Words.scanner (mkState [lit "ab"; lit "cd"] 0 1)
      (vim_move_right 1) = Returned s1
    /\ handleVimAction Words.scanner s1 (vim_move_left 1) = Returned s2
    /\ cursorRow s1 = 1
    /\ cursorRow s2 = 0 /\ cursorCol s2 = 1.
Proof.
  destruct (right_then_left_round_trip Words.scanner
              (mkState [lit "ab"; lit "cd"] 0 1)
              ltac:(vm_compute; discriminate)
              ltac:(right; vm_compute; split; discriminate)
              ltac:(right; vm_compute; reflexivity)
              ltac:(vm_compute; intro H; discriminate H))
    as (s1 & s2 & H1 & H2 & _ & _ & Hr & Hc).
  exists s1, s2. split; [exact H1 |]. split; [exact H2 |].
  split; [| split; assumption].
  vm_compute in H1. injection H1 as <-. reflexivity.
Defined.

(** ** A selection within one row *)

Lemma cpSlice_parts :
  forall line a b,
    0 <= a <= b ->
    cpSlice line 0 a ++ cpSlice line a b ++ cpSliceFrom line b = line.
Proof.
  intros line a b Hab. unfold cpSlice, cpSliceFrom, clamp.
  pose proof (len_nonneg _ (toCodePoints line)) as Hlen.
  set (cps := toCodePoints line) in *.
  replace (Z.min (Z.max 0 0) (len cps)) with 0 by lia.
  set (a' := Z.min (Z.max a 0) (len cps)).
  set (b' := Z.min (Z.max b 0) (len cps)).
  assert (Hab' : 0 <= a' <= b') by (unfold a', b'; lia).
  cbn [Z.to_nat skipn]. rewrite <- !concat_app.
  replace (Z.to_nat (a' - 0)) with (Z.to_nat a') by lia.
  replace (Z.to_nat b') with (Z.to_nat (b' - a') + Z.to_nat a')%nat by lia.
  rewrite <- skipn_skipn.
  rewrite !firstn_skipn. apply concat_toCodePoints.
Qed.

(** X20: a selection within the cursor row yanks a piece of that row: the
    row is the text before the selection, the yanked text and the text
    behind the character at the end of the selection, whichever of anchor
    and cursor comes first. *)
Theorem yank_within_row_takes_a_piece :
  forall (W : WordScanner) s ac,
    selectionAnchor s = Some (cursorRow s, ac) ->
    0 <= ac ->
    0 <= cursorCol s ->
    let line := lineAt (lines s) (cursorRow s) in
    exists s' text,
      handleVimAction W s vim_yank_selection = Returned s'
      /\ clipboard s' = Some text
      /\ lines s' = lines s
      /\ line
         = cpSlice line 0 (Z.min ac (cursorCol s)) ++ text
           ++ cpSliceFrom line (Z.max ac (cursorCol s) + 1).
Proof.
  intros W s ac Hanchor Hac Hcol line. cbn [handleVimAction].
  unfold vimYankSelection. rewrite Hanchor.
  unfold selectionRange, posBefore. cbn [fst snd].
  rewrite Z.ltb_irrefl, Z.eqb_refl. cbn [orb andb].
  destruct (Z.ltb_spec ac (cursorCol s)) as [Hlt | Hge];
    rewrite Z.eqb_refl; fold line;
    eexists; eexists; (split; [reflexivity |]); (split; [reflexivity |]);
    (split; [reflexivity |]); symmetry.
  - replace (Z.min ac (cursorCol s)) with ac by lia.
    replace (Z.max ac (cursorCol s)) with (cursorCol s) by lia.
    apply cpSlice_parts. lia.
  - replace (Z.min ac (cursorCol s)) with (cursorCol s) by lia.
    replace (Z.max ac (cursorCol s)) with ac by lia.
    apply cpSlice_parts. lia.
Qed.

Lemma yank_within_row_example :
  exists s' text,
    handleVimAction Words.scanner
      (set_selectionAnchor (mkState [lit "hello"] 0 1) (Some (0, 3)))
      vim_yank_selection = Returned s'
    /\ clipboard s' = Some text
    /\ text = lit "ell".
Proof.
  destruct (yank_within_row_takes_a_piece Words.scanner
              (set_selectionAnchor (mkState [lit "hello"] 0 1) (Some (0, 3)))
              3 eq_refl ltac:(lia) ltac:(vm_compute; discriminate))
    as (s' & text & Hrun & Hclip & _).
  exists s', text. split; [exact Hrun |]. split; [exact Hclip |].
  vm_compute in Hrun. injection Hrun as <-.
  vm_compute in Hclip. injection Hclip as <-. reflexivity.
Defined.

(** * The sticky column after each command *)

Lemma edited_nothingDoneOrEdited :
  forall s s', edited s s' -> nothingDoneOrEdited s s'.
Proof. intros s s' (Hu & Hp & _). right. split; assumption. Qed.

Lemma nothingDone : forall s, nothingDoneOrEdited s s.
Proof. intro s. left. reflexivity. Qed.

#[local] Hint Resolve nothingDone edited_nothingDoneOrEdited : shape.





(** * The forward search in codepoint columns *)







